(** * MobilizedBody: staged state access and derived kinematic operators

    A shallow embedding of [simbody/internal/MobilizedBody.h] (Simbody as
    shipped in the OpenSim 3.1 SDK).  The header's inline operators are
    transcribed function by function; the scalar type [Real] is read as the
    field of real numbers, so an equation proved here is the exact identity
    behind an agreement "to numeric tolerance" of the rounded computation.
    The distance-rate operators select their case by comparing a computed
    value with zero; their case analysis is carried out on binary64 doubles
    (Module [Double]), where rounding and underflow decide the comparison.

    Layout: scalars and frame algebra, exceptions and stages, the State and
    its cache, the header's operators, the body tree and the mobilizer
    setters, and then the lemmas. *)

From Stdlib Require Import Reals Lra Psatz List String Bool Arith Lia.
From Stdlib Require Floats.
Import ListNotations.

Open Scope R_scope.

(* ------------------------------------------------------------------------ *)
(** ** Scalars and 3-vectors                                                 *)
(* ------------------------------------------------------------------------ *)

(** [typedef double Real;] idealised as a real number. *)
Definition Real : Type := R.

(** Modelled from the spec: [Vec3], the 3-vector of the frame algebra (its
    declaration lives in SimTKcommon, not in this header). *)
Record Vec3 : Type := mkVec3 { vx : Real; vy : Real; vz : Real }.

Definition Vec3_zero : Vec3 := mkVec3 0 0 0.

Definition vadd (a b : Vec3) : Vec3 :=
  mkVec3 (vx a + vx b) (vy a + vy b) (vz a + vz b).

Definition vsub (a b : Vec3) : Vec3 :=
  mkVec3 (vx a - vx b) (vy a - vy b) (vz a - vz b).

Definition vneg (a : Vec3) : Vec3 := mkVec3 (- vx a) (- vy a) (- vz a).

(** [s * v] *)
Definition vscale (s : Real) (v : Vec3) : Vec3 :=
  mkVec3 (s * vx v) (s * vy v) (s * vz v).

(** [v / s] *)
Definition vdiv (v : Vec3) (s : Real) : Vec3 :=
  mkVec3 (vx v / s) (vy v / s) (vz v / s).

(** [dot(a,b)] *)
Definition dot (a b : Vec3) : Real := vx a * vx b + vy a * vy b + vz a * vz b.

(** [a >< b], the cross product. *)
Definition cross (a b : Vec3) : Vec3 :=
  mkVec3 (vy a * vz b - vz a * vy b)
         (vz a * vx b - vx a * vz b)
         (vx a * vy b - vy a * vx b).

(** [v.norm()] *)
Definition norm (v : Vec3) : Real := sqrt (dot v v).

Declare Scope vec_scope.
Delimit Scope vec_scope with vec.
Bind Scope vec_scope with Vec3.
Infix "+" := vadd : vec_scope.
Infix "-" := vsub : vec_scope.
Notation "- a" := (vneg a) : vec_scope.
(** [a >< b] stands for the header's [a >< b]. *)
Infix "><" := cross (at level 40, left associativity) : vec_scope.

(* ------------------------------------------------------------------------ *)
(** ** Rotations, transforms, spatial vectors                                *)
(* ------------------------------------------------------------------------ *)

(** Modelled from the spec: a 3x3 matrix given by its rows; a [Rotation] is
    such a matrix whose class invariant is orthonormality ([isRotation]). *)
Record Mat33 : Type := mkMat33 { row0 : Vec3; row1 : Vec3; row2 : Vec3 }.

Definition Rotation : Type := Mat33.

Definition Mat33_identity : Mat33 :=
  mkMat33 (mkVec3 1 0 0) (mkVec3 0 1 0) (mkVec3 0 0 1).

Definition col0 (m : Mat33) : Vec3 := mkVec3 (vx (row0 m)) (vx (row1 m)) (vx (row2 m)).
Definition col1 (m : Mat33) : Vec3 := mkVec3 (vy (row0 m)) (vy (row1 m)) (vy (row2 m)).
Definition col2 (m : Mat33) : Vec3 := mkVec3 (vz (row0 m)) (vz (row1 m)) (vz (row2 m)).

(** [~R], the transpose (the inverse of a rotation). *)
Definition transpose (m : Mat33) : Mat33 := mkMat33 (col0 m) (col1 m) (col2 m).

(** [R * v], re-expression of a vector. *)
Definition mvmul (m : Mat33) (v : Vec3) : Vec3 :=
  mkVec3 (dot (row0 m) v) (dot (row1 m) v) (dot (row2 m) v).

(** [R1 * R2] *)
Definition mmul (a b : Mat33) : Mat33 :=
  mkMat33
    (mkVec3 (dot (row0 a) (col0 b)) (dot (row0 a) (col1 b)) (dot (row0 a) (col2 b)))
    (mkVec3 (dot (row1 a) (col0 b)) (dot (row1 a) (col1 b)) (dot (row1 a) (col2 b)))
    (mkVec3 (dot (row2 a) (col0 b)) (dot (row2 a) (col1 b)) (dot (row2 a) (col2 b))).

(** The class invariant of [Rotation]: the matrix is orthonormal. *)
Definition isRotation (m : Mat33) : Prop :=
  mmul (transpose m) m = Mat33_identity /\ mmul m (transpose m) = Mat33_identity.

(** Modelled from the spec: [Transform], orientation plus origin offset of a
    frame in a reference frame. *)
Record Transform : Type := mkTransform { R : Rotation; p : Vec3 }.

Definition Transform_identity : Transform := mkTransform Mat33_identity Vec3_zero.

(** [X_AF * p_F]: remeasure a station from the reference frame's origin,
    [p_A = p_AF + R_AF * p_F]. *)
Definition xformStation (X : Transform) (s : Vec3) : Vec3 :=
  (p X + mvmul (R X) s)%vec.

(** [~X_AF * p_A]: the inverse mapping, [p_F = ~R_AF * (p_A - p_AF)]. *)
Definition invXformStation (X : Transform) (s : Vec3) : Vec3 :=
  mvmul (transpose (R X)) (s - p X)%vec.

(** [X_AB * X_BC] *)
Definition compose (X Y : Transform) : Transform :=
  mkTransform (mmul (R X) (R Y)) (xformStation X (p Y)).

(** [~X_BA * X_BC] *)
Definition invCompose (X Y : Transform) : Transform :=
  mkTransform (mmul (transpose (R X)) (R Y)) (invXformStation X (p Y)).

(** [~X] as a value: [X_FA] from [X_AF]. *)
Definition invert (X : Transform) : Transform :=
  mkTransform (transpose (R X)) (mvmul (transpose (R X)) (- p X)%vec).

Definition isTransform (X : Transform) : Prop := isRotation (R X).

(** Modelled from the spec: [SpatialVec], the ordered pair (angular, linear);
    [V[0]] is the angular part and [V[1]] the linear part. *)
Record SpatialVec : Type := mkSpatialVec { angular : Vec3; linear : Vec3 }.

Definition SpatialVec_zero : SpatialVec := mkSpatialVec Vec3_zero Vec3_zero.

(** [R * V]: both halves are re-expressed. *)
Definition rotSpatial (m : Mat33) (V : SpatialVec) : SpatialVec :=
  mkSpatialVec (mvmul m (angular V)) (mvmul m (linear V)).

(** [-V] *)
Definition negSpatial (V : SpatialVec) : SpatialVec :=
  mkSpatialVec (- angular V)%vec (- linear V)%vec.

(* ------------------------------------------------------------------------ *)
(** ** Exceptions                                                            *)
(* ------------------------------------------------------------------------ *)

Inductive Exception : Type :=
| StageViolation
| TopologyError
| IndexOutOfRange
| Assert (cond : string) (msg : string).

Inductive Result (A : Type) : Type :=
| Ok (a : A)
| Throw (e : Exception).

Arguments Ok {A} a.
Arguments Throw {A} e.

Definition bind {A B : Type} (c : Result A) (k : A -> Result B) : Result B :=
  match c with
  | Ok a => k a
  | Throw e => Throw e
  end.

Declare Scope result_scope.
Delimit Scope result_scope with res.
Notation "x <- c ;; k" := (bind c (fun x => k))
  (at level 61, c at next level, right associativity) : result_scope.
Notation "' pat <- c ;; k" := (bind c (fun x => match x with pat => k end))
  (at level 61, pat pattern, c at next level, right associativity) : result_scope.
Notation "c ;;; k" := (bind c (fun _ => k))
  (at level 61, right associativity) : result_scope.
Open Scope result_scope.

Definition succeeds {A : Type} (c : Result A) : Prop := exists a, c = Ok a.

(* ------------------------------------------------------------------------ *)
(** ** Stages                                                                *)
(* ------------------------------------------------------------------------ *)

(** The stages in their strict total order.  [Empty] is the validity ceiling
    of a State in which not even Topology is valid. *)
Inductive Stage : Type :=
| Empty | Topology | Model | Instance | Time
| Position | Velocity | Dynamics | Acceleration.

Definition stageRank (g : Stage) : nat :=
  match g with
  | Empty => 0 | Topology => 1 | Model => 2 | Instance => 3 | Time => 4
  | Position => 5 | Velocity => 6 | Dynamics => 7 | Acceleration => 8
  end%nat.

Definition stage_leb (g h : Stage) : bool := (stageRank g <=? stageRank h)%nat.

Definition stagePrev (g : Stage) : Stage :=
  match g with
  | Empty => Empty | Topology => Empty | Model => Topology
  | Instance => Model | Time => Instance | Position => Time
  | Velocity => Position | Dynamics => Velocity | Acceleration => Dynamics
  end.

(* ------------------------------------------------------------------------ *)
(** ** The State and its cache                                               *)
(* ------------------------------------------------------------------------ *)

Definition MobilizedBodyIndex : Type := nat.

(** A [MobilizedBody] handle is identified with its index in the owning
    matter subsystem (the header converts implicitly between the two). *)
Definition MobilizedBody : Type := MobilizedBodyIndex.

Definition GroundIndex : MobilizedBodyIndex := 0%nat.

(** The State: the validity ceiling, the generalized coordinates and speeds,
    and the per-body cache entries X_GB, V_GB and A_GB. *)
Record State : Type := mkState {
  currentStage : Stage;
  qvec : list Real;
  uvec : list Real;
  cacheX_GB : MobilizedBodyIndex -> Transform;
  cacheV_GB : MobilizedBodyIndex -> SpatialVec;
  cacheA_GB : MobilizedBodyIndex -> SpatialVec
}.

(** Modelled from the spec: reading a quantity defined at stage [g] requires
    [g] to be currently valid and fails with [StageViolation] otherwise. *)
Definition requireStage (s : State) (g : Stage) : Result unit :=
  if stage_leb g (currentStage s) then Ok tt else Throw StageViolation.

(** Modelled from the spec: [getBodyTransform], declared in the header "This
    response is available at Position stage" and defined out of line. *)
Definition getBodyTransform (s : State) (B : MobilizedBody) : Result Transform :=
  requireStage s Position ;;; Ok (cacheX_GB s B).

(** Modelled from the spec: [getBodyVelocity], available at Velocity stage. *)
Definition getBodyVelocity (s : State) (B : MobilizedBody) : Result SpatialVec :=
  requireStage s Velocity ;;; Ok (cacheV_GB s B).

(** Modelled from the spec: [getBodyAcceleration], available at Acceleration
    stage. *)
Definition getBodyAcceleration (s : State) (B : MobilizedBody) : Result SpatialVec :=
  requireStage s Acceleration ;;; Ok (cacheA_GB s B).

(** Modelled from the spec: [realize(stage)] requires every lower stage to be
    valid, is a no-op on a stage that is valid already, and otherwise caches
    the stage's quantities and marks it valid.  The computation of the cache
    entries (the propagator) is the argument [calcCache]. *)
Definition realize (calcCache : Stage -> State -> State) (s : State) (g : Stage)
  : Result State :=
  if stage_leb g (currentStage s) then Ok s
  else if stage_leb (stagePrev g) (currentStage s) then
    let s' := calcCache g s in
    Ok (mkState g (qvec s) (uvec s) (cacheX_GB s') (cacheV_GB s') (cacheA_GB s'))
  else Throw StageViolation.

(** A State some of whose stages have been realized: the ceiling is at least
    [g] and every cached body orientation satisfies the Rotation invariant. *)
Definition realizedTo (g : Stage) (s : State) : Prop :=
  stage_leb g (currentStage s) = true /\ forall B, isTransform (cacheX_GB s B).

(* ------------------------------------------------------------------------ *)
(** ** State access: inline accessors of the header                          *)
(* ------------------------------------------------------------------------ *)

Definition getBodyRotation (s : State) (B : MobilizedBody) : Result Rotation :=
  X <- getBodyTransform s B ;; Ok (R X).

Definition getBodyOriginLocation (s : State) (B : MobilizedBody) : Result Vec3 :=
  X <- getBodyTransform s B ;; Ok (p X).

Definition getBodyAngularVelocity (s : State) (B : MobilizedBody) : Result Vec3 :=
  V <- getBodyVelocity s B ;; Ok (angular V).

Definition getBodyOriginVelocity (s : State) (B : MobilizedBody) : Result Vec3 :=
  V <- getBodyVelocity s B ;; Ok (linear V).

Definition getBodyAngularAcceleration (s : State) (B : MobilizedBody) : Result Vec3 :=
  A <- getBodyAcceleration s B ;; Ok (angular A).

Definition getBodyOriginAcceleration (s : State) (B : MobilizedBody) : Result Vec3 :=
  A <- getBodyAcceleration s B ;; Ok (linear A).

(* ------------------------------------------------------------------------ *)
(** ** Basic operators                                                       *)
(* ------------------------------------------------------------------------ *)

Definition expressVectorInGroundFrame (s : State) (B : MobilizedBody)
    (vectorInB : Vec3) : Result Vec3 :=
  R_GB <- getBodyRotation s B ;; Ok (mvmul R_GB vectorInB).

Definition expressGroundVectorInBodyFrame (s : State) (B : MobilizedBody)
    (vectorInG : Vec3) : Result Vec3 :=
  R_GB <- getBodyRotation s B ;; Ok (mvmul (transpose R_GB) vectorInG).

Definition expressVectorInAnotherBodyFrame (s : State) (B : MobilizedBody)
    (vectorInB : Vec3) (inBodyA : MobilizedBody) : Result Vec3 :=
  v_G <- expressVectorInGroundFrame s B vectorInB ;;
  expressGroundVectorInBodyFrame s inBodyA v_G.

Definition findBodyTransformInAnotherBody (s : State) (B inBodyA : MobilizedBody)
  : Result Transform :=
  X_GA <- getBodyTransform s inBodyA ;;
  X_GB <- getBodyTransform s B ;;
  Ok (invCompose X_GA X_GB).

Definition findBodyRotationInAnotherBody (s : State) (B inBodyA : MobilizedBody)
  : Result Rotation :=
  R_GA <- getBodyRotation s inBodyA ;;
  R_GB <- getBodyRotation s B ;;
  Ok (mmul (transpose R_GA) R_GB).

Definition findStationLocationInGround (s : State) (B : MobilizedBody)
    (stationOnB : Vec3) : Result Vec3 :=
  X_GB <- getBodyTransform s B ;; Ok (xformStation X_GB stationOnB).

Definition findStationAtGroundPoint (s : State) (B : MobilizedBody)
    (locationInG : Vec3) : Result Vec3 :=
  X_GB <- getBodyTransform s B ;; Ok (invXformStation X_GB locationInG).

Definition findBodyOriginLocationInAnotherBody (s : State) (B toBodyA : MobilizedBody)
  : Result Vec3 :=
  p_GB <- getBodyOriginLocation s B ;;
  findStationAtGroundPoint s toBodyA p_GB.

Definition findBodyVelocityInAnotherBody (s : State) (B inBodyA : MobilizedBody)
  : Result SpatialVec :=
  V_GB <- getBodyVelocity s B ;;
  V_GA <- getBodyVelocity s inBodyA ;;
  let w_AB_G := (angular V_GB - angular V_GA)%vec in
  X_GB <- getBodyTransform s B ;;
  X_GA <- getBodyTransform s inBodyA ;;
  let p_AB_G := (p X_GB - p X_GA)%vec in
  let p_AB_G_dot := (linear V_GB - linear V_GA)%vec in
  let v_AB_G := (p_AB_G_dot - angular V_GA >< p_AB_G)%vec in
  Ok (rotSpatial (transpose (R X_GA)) (mkSpatialVec w_AB_G v_AB_G)).

Definition findStationVelocityInGround (s : State) (B : MobilizedBody)
    (stationOnB : Vec3) : Result Vec3 :=
  w <- getBodyAngularVelocity s B ;;
  v <- getBodyOriginVelocity s B ;;
  r <- expressVectorInGroundFrame s B stationOnB ;;
  Ok (v + w >< r)%vec.

Definition findStationAccelerationInGround (s : State) (B : MobilizedBody)
    (stationOnB : Vec3) : Result Vec3 :=
  w <- getBodyAngularVelocity s B ;;
  b <- getBodyAngularAcceleration s B ;;
  a <- getBodyOriginAcceleration s B ;;
  r <- expressVectorInGroundFrame s B stationOnB ;;
  Ok (a + b >< r + w >< (w >< r))%vec.

(** The two out-parameters are returned as a pair
    [(locationOnGround, velocityInGround)]. *)
Definition findStationLocationAndVelocityInGround (s : State) (B : MobilizedBody)
    (locationOnB : Vec3) : Result (Vec3 * Vec3) :=
  p_GB <- getBodyOriginLocation s B ;;
  p_BS_G <- expressVectorInGroundFrame s B locationOnB ;;
  let locationOnGround := (p_GB + p_BS_G)%vec in
  w_GB <- getBodyAngularVelocity s B ;;
  v_GB <- getBodyOriginVelocity s B ;;
  let velocityInGround := (v_GB + w_GB >< p_BS_G)%vec in
  Ok (locationOnGround, velocityInGround).

(** The three out-parameters are returned as a triple
    [(locationOnGround, velocityInGround, accelerationInGround)]. *)
Definition findStationLocationVelocityAndAccelerationInGround (s : State)
    (B : MobilizedBody) (locationOnB : Vec3) : Result (Vec3 * Vec3 * Vec3) :=
  R_GB <- getBodyRotation s B ;;
  p_GB <- getBodyOriginLocation s B ;;
  let r := mvmul R_GB locationOnB in
  let locationOnGround := (p_GB + r)%vec in
  w <- getBodyAngularVelocity s B ;;
  v <- getBodyOriginVelocity s B ;;
  b <- getBodyAngularAcceleration s B ;;
  a <- getBodyOriginAcceleration s B ;;
  let wXr := (w >< r)%vec in
  let velocityInGround := (v + wXr)%vec in
  let accelerationInGround := (a + b >< r + w >< wXr)%vec in
  Ok (locationOnGround, velocityInGround, accelerationInGround).

(* ------------------------------------------------------------------------ *)
(** ** High-level operators                                                  *)
(* ------------------------------------------------------------------------ *)

(** Two handles are the same mobilized body when they refer to the same
    implementation object, that is, to the same index. *)
Definition isSameMobilizedBody (B mBody : MobilizedBody) : bool := Nat.eqb B mBody.

Definition calcStationToStationDistance (s : State) (B : MobilizedBody)
    (locationOnBodyB : Vec3) (bodyA : MobilizedBody) (locationOnBodyA : Vec3)
  : Result Real :=
  if isSameMobilizedBody B bodyA then
    Ok (norm (locationOnBodyA - locationOnBodyB)%vec)
  else
    r_Go_PB <- findStationLocationInGround s B locationOnBodyB ;;
    r_Go_PA <- findStationLocationInGround s bodyA locationOnBodyA ;;
    Ok (norm (r_Go_PA - r_Go_PB)%vec).

Definition calcStationToStationDistanceTimeDerivative (s : State)
    (B : MobilizedBody) (locationOnBodyB : Vec3)
    (bodyA : MobilizedBody) (locationOnBodyA : Vec3) : Result Real :=
  if isSameMobilizedBody B bodyA then Ok 0
  else
    '(rB, vB) <- findStationLocationAndVelocityInGround s B locationOnBodyB ;;
    '(rA, vA) <- findStationLocationAndVelocityInGround s bodyA locationOnBodyA ;;
    let r := (rA - rB)%vec in
    let v := (vA - vB)%vec in
    let d := norm r in
    if Req_dec_T d 0 then Ok (norm v)
    else Ok (dot v (vdiv r d)).

Definition calcStationToStationDistance2ndTimeDerivative (s : State)
    (B : MobilizedBody) (locationOnBodyB : Vec3)
    (bodyA : MobilizedBody) (locationOnBodyA : Vec3) : Result Real :=
  if isSameMobilizedBody B bodyA then Ok 0
  else
    '(rB, vB, aB) <-
       findStationLocationVelocityAndAccelerationInGround s B locationOnBodyB ;;
    '(rA, vA, aA) <-
       findStationLocationVelocityAndAccelerationInGround s bodyA locationOnBodyA ;;
    let r := (rA - rB)%vec in
    let v := (vA - vB)%vec in
    let a := (aA - aB)%vec in
    let d := norm r in
    if Req_dec_T d 0 then
      let speed := norm v in
      if Req_dec_T speed 0 then Ok (norm a)
      else Ok (dot a (vdiv v speed))
    else
      let u := vdiv r d in
      let vp := (v - vscale (dot v u) u)%vec in
      Ok (dot a u + dot vp v / d).

(* ------------------------------------------------------------------------ *)
(** ** Operators the header leaves unimplemented                             *)
(* ------------------------------------------------------------------------ *)

(** A string literal used as a condition is a non-null pointer: it is true. *)
Definition literalAsCondition (literal : string) : bool := true.

(** Modelled from the spec: the macro [SimTK_ASSERT_ALWAYS(cond, msg)], whose
    definition is in SimTKcommon: the assertion is checked in every build and
    raises [Assert] with the message when the condition is false. *)
Definition SimTK_ASSERT_ALWAYS (cond : bool) (msg : string) : Result unit :=
  if cond then Ok tt else Throw (Assert "SimTK_ASSERT_ALWAYS" msg).

Section Unimplemented.

(** The values written after the assertion: [NaN], and the contents of the
    default-constructed [SpatialVec] behind [*(new SpatialVec())]. *)
Variable NaN : Real.
Variable newSpatialVec : SpatialVec.

Definition Vec3_getNaN : Vec3 := mkVec3 NaN NaN NaN.

Definition getMobilizerAcceleration (s : State) (B : MobilizedBody)
  : Result SpatialVec :=
  SimTK_ASSERT_ALWAYS (negb (literalAsCondition "unimplemented method"))
    "MobilizedBody::getMobilizerAcceleration() is not yet implemented -- any volunteers?" ;;;
  Ok newSpatialVec.

Definition calcBodyMovingPointVelocityInBody (s : State) (B : MobilizedBody)
    (locationOnBodyB velocityOnBodyB : Vec3) (inBodyA : MobilizedBody)
  : Result Vec3 :=
  SimTK_ASSERT_ALWAYS (negb (literalAsCondition "unimplemented method"))
    "MobilizedBody::calcBodyMovingPointVelocityInBody() is not yet implemented -- any volunteers?" ;;;
  Ok Vec3_getNaN.

Definition calcBodyMovingPointAccelerationInBody (s : State) (B : MobilizedBody)
    (locationOnBodyB velocityOnBodyB accelerationOnBodyB : Vec3)
    (inBodyA : MobilizedBody) : Result Vec3 :=
  SimTK_ASSERT_ALWAYS (negb (literalAsCondition "unimplemented method"))
    "MobilizedBody::calcBodyMovingPointAccelerationInBody() is not yet implemented -- any volunteers?" ;;;
  Ok Vec3_getNaN.

Definition calcMovingPointToPointDistanceTimeDerivative (s : State)
    (B : MobilizedBody) (locationOnBodyB velocityOnBodyB : Vec3)
    (bodyA : MobilizedBody) (locationOnBodyA velocityOnBodyA : Vec3)
  : Result Real :=
  SimTK_ASSERT_ALWAYS (negb (literalAsCondition "unimplemented method"))
    "MobilizedBody::calcMovingPointToPointDistanceTimeDerivative() is not yet implemented -- any volunteers?" ;;;
  Ok NaN.

Definition calcMovingPointToPointDistance2ndTimeDerivative (s : State)
    (B : MobilizedBody)
    (locationOnBodyB velocityOnBodyB accelerationOnBodyB : Vec3)
    (bodyA : MobilizedBody)
    (locationOnBodyA velocityOnBodyA accelerationOnBodyA : Vec3)
  : Result Real :=
  SimTK_ASSERT_ALWAYS (negb (literalAsCondition "unimplemented method"))
    "MobilizedBody::calcMovingPointToPointDistance2ndTimeDerivative() is not yet implemented -- any volunteers?" ;;;
  Ok NaN.

End Unimplemented.

Definition isAssert {A : Type} (c : Result A) : Prop :=
  exists cond msg, c = Throw (Assert cond msg).

(* ------------------------------------------------------------------------ *)
(** ** The body tree                                                         *)
(* ------------------------------------------------------------------------ *)

(** Modelled from the spec: a mobilizer as the function table of its joint
    kind: the coordinate and speed counts, whether any of its coordinates is
    of rotational or of translational character, and how the kind fits its
    coordinates to a requested rotation or translation. *)
Record Mobilizer : Type := mkMobilizer {
  nq : nat;
  nu : nat;
  hasRotationalQ : bool;
  hasTranslationalQ : bool;
  fitQToRotation : Rotation -> list Real -> list Real;
  fitQToTranslation : Vec3 -> list Real -> list Real
}.

Definition purelyTranslational (m : Mobilizer) : bool :=
  hasTranslationalQ m && negb (hasRotationalQ m).

Definition purelyRotational (m : Mobilizer) : bool :=
  hasRotationalQ m && negb (hasTranslationalQ m).

(** Modelled from the spec: a node of the body tree.  Ground is the node
    without a parent. *)
Record MobilizedBodyNode : Type := mkNode {
  parentIndex : option MobilizedBodyIndex;
  X_PF : Transform;
  X_BM : Transform;
  mobilizer : Mobilizer
}.

(** The arena of nodes; a node's index is its position. *)
Definition BodyTree : Type := list MobilizedBodyNode.

Definition noMobilities : Mobilizer :=
  mkMobilizer 0 0 false false (fun _ q => q) (fun _ q => q).

Definition groundNode : MobilizedBodyNode :=
  mkNode None Transform_identity Transform_identity noMobilities.

Definition groundOnly : BodyTree := [groundNode].

(** Modelled from the spec: [addBody] appends a node with the next index and
    fails with [TopologyError] when the parent is not an existing node. *)
Definition addBody (t : BodyTree) (parent : MobilizedBodyIndex)
    (inboardFrame outboardFrame : Transform) (m : Mobilizer) : Result BodyTree :=
  if (parent <? List.length t)%nat
  then Ok (t ++ [mkNode (Some parent) inboardFrame outboardFrame m])
  else Throw TopologyError.

(** The trees that construction can produce. *)
Inductive constructed : BodyTree -> Prop :=
| constructed_ground : constructed groundOnly
| constructed_add t parent X_PF X_BM m t' :
    constructed t -> addBody t parent X_PF X_BM m = Ok t' -> constructed t'.

(** Levels are computed once, in ascending index order: [done] holds the
    levels of the nodes before [nodes]. *)
Fixpoint calcLevels (nodes : list MobilizedBodyNode) (done : list nat) : list nat :=
  match nodes with
  | [] => done
  | n :: rest =>
      let l := match parentIndex n with
               | None => 0%nat
               | Some P => (nth P done 0 + 1)%nat
               end in
      calcLevels rest (done ++ [l])
  end.

(** Offsets by prefix sum of the counts. *)
Fixpoint prefixSums (counts : list nat) (start : nat) : list nat :=
  match counts with
  | [] => []
  | c :: rest => start :: prefixSums rest (start + c)%nat
  end.

(** What [finalizeTopology] caches. *)
Record TopologyCache : Type := mkTopologyCache {
  nodes : BodyTree;
  levels : list nat;
  firstQIndex : list nat;
  firstUIndex : list nat
}.

(** Modelled from the spec: [finalizeTopology] derives the levels and assigns
    each mobilizer a contiguous slot of q and u. *)
Definition finalizeTopology (t : BodyTree) : TopologyCache :=
  mkTopologyCache t (calcLevels t [])
    (prefixSums (map (fun n => nq (mobilizer n)) t) 0)
    (prefixSums (map (fun n => nu (mobilizer n)) t) 0).

Definition isGround (B : MobilizedBody) : bool := Nat.eqb B GroundIndex.

(** Modelled from the spec: [getParentMobilizedBody]; "This call will fail if
    the current MobilizedBody is Ground, since Ground has no parent." *)
Definition getParentMobilizedBody (topo : TopologyCache) (B : MobilizedBody)
  : Result MobilizedBody :=
  match nth_error (nodes topo) B with
  | None => Throw IndexOutOfRange
  | Some n => match parentIndex n with
              | None => Throw TopologyError
              | Some P => Ok P
              end
  end.

(** Modelled from the spec: [getLevelInMultibodyTree], the cached depth. *)
Definition getLevelInMultibodyTree (topo : TopologyCache) (B : MobilizedBody)
  : Result nat :=
  match nth_error (levels topo) B with
  | None => Throw IndexOutOfRange
  | Some l => Ok l
  end.

(* ------------------------------------------------------------------------ *)
(** ** Mobilizer coordinates and the fitting setters                         *)
(* ------------------------------------------------------------------------ *)

Definition stage_min (g h : Stage) : Stage := if stage_leb g h then g else h.

(** Overwrite [l] from position [first] on with [vals]. *)
Fixpoint overwrite (l : list Real) (first : nat) (vals : list Real) : list Real :=
  match l with
  | [] => []
  | x :: l' =>
      match first with
      | S k => x :: overwrite l' k vals
      | O => match vals with
             | [] => l
             | v :: vals' => v :: overwrite l' 0 vals'
             end
      end
  end.

(** Modelled from the spec: writing q, a Position-stage variable, clamps the
    validity ceiling below Position. *)
Definition updQ (s : State) (q' : list Real) : State :=
  mkState (stage_min (currentStage s) Time) q' (uvec s)
          (cacheX_GB s) (cacheV_GB s) (cacheA_GB s).

(** This mobilizer's partition of q. *)
Definition getQAsVector (topo : TopologyCache) (s : State) (B : MobilizedBody)
  : Result (list Real) :=
  match nth_error (nodes topo) B, nth_error (firstQIndex topo) B with
  | Some n, Some first => Ok (firstn (nq (mobilizer n)) (skipn first (qvec s)))
  | _, _ => Throw IndexOutOfRange
  end.

(** Modelled from the spec: [getOneQ]; an index outside [0, nq) fails with
    [IndexOutOfRange]. *)
Definition getOneQ (topo : TopologyCache) (s : State) (B : MobilizedBody) (which : nat)
  : Result Real :=
  q <- getQAsVector topo s B ;;
  match nth_error q which with
  | Some v => Ok v
  | None => Throw IndexOutOfRange
  end.

(** Modelled from the spec: [setQToFitRotation], the rotational-only setter:
    the mobilizer fits its own coordinates to the requested rotation; on a
    joint without rotational coordinates nothing is written. *)
Definition setQToFitRotation (topo : TopologyCache) (s : State) (B : MobilizedBody)
    (R_FM : Rotation) : Result State :=
  match nth_error (nodes topo) B, nth_error (firstQIndex topo) B with
  | Some n, Some first =>
      let m := mobilizer n in
      if hasRotationalQ m then
        let mine := firstn (nq m) (skipn first (qvec s)) in
        Ok (updQ s (overwrite (qvec s) first
                      (firstn (nq m) (fitQToRotation m R_FM mine))))
      else Ok s
  | _, _ => Throw IndexOutOfRange
  end.

(** Modelled from the spec: the translational-only setter (the header's
    "alternate Only method", which may not touch rotational coordinates); on
    a joint without translational coordinates nothing is written. *)
Definition setQToFitTranslationOnly (topo : TopologyCache) (s : State)
    (B : MobilizedBody) (p_FM : Vec3) : Result State :=
  match nth_error (nodes topo) B, nth_error (firstQIndex topo) B with
  | Some n, Some first =>
      let m := mobilizer n in
      if hasTranslationalQ m then
        let mine := firstn (nq m) (skipn first (qvec s)) in
        Ok (updQ s (overwrite (qvec s) first
                      (firstn (nq m) (fitQToTranslation m p_FM mine))))
      else Ok s
  | _, _ => Throw IndexOutOfRange
  end.

(** Replay a sequence of realize requests; a failed request leaves the State
    as it was. *)
Fixpoint realizeAll (calcCache : Stage -> State -> State) (s : State)
    (requests : list Stage) : State :=
  match requests with
  | [] => s
  | g :: rest =>
      match realize calcCache s g with
      | Ok s' => realizeAll calcCache s' rest
      | Throw _ => realizeAll calcCache s rest
      end
  end.

(* ------------------------------------------------------------------------ *)
(** ** A concrete State: an arm turning about Ground's z axis                *)
(* ------------------------------------------------------------------------ *)

(** Body 1 sits at (1,0,0) and turns with Ground-fixed axis z at 1 rad/s
    about the Ground origin; Ground is body 0.  Axes are aligned. *)
Definition armX_GB (B : MobilizedBodyIndex) : Transform :=
  match B with
  | 1%nat => mkTransform Mat33_identity (mkVec3 1 0 0)
  | _ => Transform_identity
  end.

Definition armV_GB (B : MobilizedBodyIndex) : SpatialVec :=
  match B with
  | 1%nat => mkSpatialVec (mkVec3 0 0 1) (mkVec3 0 1 0)
  | _ => SpatialVec_zero
  end.

Definition armA_GB (B : MobilizedBodyIndex) : SpatialVec :=
  match B with
  | 1%nat => mkSpatialVec Vec3_zero (mkVec3 (-1) 0 0)
  | _ => SpatialVec_zero
  end.

Definition armState : State :=
  mkState Acceleration [0] [1] armX_GB armV_GB armA_GB.

(** The same arm in a State that has only been finalized. *)
Definition armStateFinalized : State :=
  mkState Topology [0] [1] armX_GB armV_GB armA_GB.

(** A quarter turn about z. *)
Definition quarterTurnZ : Rotation :=
  mkMat33 (mkVec3 0 (-1) 0) (mkVec3 1 0 0) (mkVec3 0 0 1).

(** A sliding mobilizer along the x axis of F: one translational coordinate,
    no rotational one. *)
Definition sliderX : Mobilizer :=
  mkMobilizer 1 1 false true (fun _ q => q) (fun p_FM _ => [vx p_FM]).

(** Ground with one body on a slider. *)
Definition sliderTree : BodyTree :=
  groundOnly ++ [mkNode (Some 0%nat) Transform_identity Transform_identity sliderX].

(* ------------------------------------------------------------------------ *)
(** ** Further basic operators of the header                                 *)
(* ------------------------------------------------------------------------ *)

Definition findBodyAngularVelocityInAnotherBody (s : State)
    (B inBodyA : MobilizedBody) : Result Vec3 :=
  w_GB <- getBodyAngularVelocity s B ;;
  w_GA <- getBodyAngularVelocity s inBodyA ;;
  let w_AB_G := (w_GB - w_GA)%vec in
  expressGroundVectorInBodyFrame s inBodyA w_AB_G.

Definition findBodyOriginVelocityInAnotherBody (s : State)
    (B inBodyA : MobilizedBody) : Result Vec3 :=
  V_AB <- findBodyVelocityInAnotherBody s B inBodyA ;; Ok (linear V_AB).

Definition findBodyAngularAccelerationInAnotherBody (s : State)
    (B inBodyA : MobilizedBody) : Result Vec3 :=
  R_GA <- getBodyRotation s inBodyA ;;
  w_GA <- getBodyAngularVelocity s inBodyA ;;
  w_GB <- getBodyAngularVelocity s B ;;
  b_GA <- getBodyAngularAcceleration s inBodyA ;;
  b_GB <- getBodyAngularAcceleration s B ;;
  let w_AB_G := (w_GB - w_GA)%vec in
  let w_AB_G_dot := (b_GB - b_GA)%vec in
  let b_AB_G := (w_AB_G_dot - w_GA >< w_AB_G)%vec in
  Ok (mvmul (transpose R_GA) b_AB_G).

Definition findStationLocationInAnotherBody (s : State) (B : MobilizedBody)
    (stationOnB : Vec3) (toBodyA : MobilizedBody) : Result Vec3 :=
  g <- findStationLocationInGround s B stationOnB ;;
  findStationAtGroundPoint s toBodyA g.

Definition findStationVelocityInAnotherBody (s : State) (B : MobilizedBody)
    (stationOnBodyB : Vec3) (inBodyA : MobilizedBody) : Result Vec3 :=
  V_AB <- findBodyVelocityInAnotherBody s B inBodyA ;;
  p_BS_A <- expressVectorInAnotherBodyFrame s B stationOnBodyB inBodyA ;;
  Ok (linear V_AB + (angular V_AB >< p_BS_A))%vec.

Definition findStationAtAnotherBodyStation (s : State) (B fromBodyA : MobilizedBody)
    (stationOnA : Vec3) : Result Vec3 :=
  findStationLocationInAnotherBody s fromBodyA stationOnA B.

Definition findStationAtAnotherBodyOrigin (s : State) (B fromBodyA : MobilizedBody)
  : Result Vec3 :=
  p_GA <- getBodyOriginLocation s fromBodyA ;;
  findStationAtGroundPoint s B p_GA.

Definition findFrameTransformInGround (s : State) (B : MobilizedBody)
    (frameOnB : Transform) : Result Transform :=
  X_GB <- getBodyTransform s B ;; Ok (compose X_GB frameOnB).

Definition findFrameVelocityInGround (s : State) (B : MobilizedBody)
    (frameOnB : Transform) : Result SpatialVec :=
  w <- getBodyAngularVelocity s B ;;
  v <- findStationVelocityInGround s B (p frameOnB) ;;
  Ok (mkSpatialVec w v).

Definition findFrameAccelerationInGround (s : State) (B : MobilizedBody)
    (frameOnB : Transform) : Result SpatialVec :=
  b <- getBodyAngularAcceleration s B ;;
  a <- findStationAccelerationInGround s B (p frameOnB) ;;
  Ok (mkSpatialVec b a).

Section MassCenter.

(** The mass-center station of each body as the State's Instance-stage cache
    holds it ([getBodyMassProperties(s).getMassCenter()]; the mass properties
    class is declared outside this header). *)
Variable massCenterStation : State -> MobilizedBodyIndex -> Vec3.

Definition getBodyMassCenterStation (s : State) (B : MobilizedBody) : Result Vec3 :=
  requireStage s Instance ;;; Ok (massCenterStation s B).

Definition findMassCenterLocationInGround (s : State) (B : MobilizedBody)
  : Result Vec3 :=
  c <- getBodyMassCenterStation s B ;;
  findStationLocationInGround s B c.

Definition findMassCenterLocationInAnotherBody (s : State)
    (B toBodyA : MobilizedBody) : Result Vec3 :=
  c <- getBodyMassCenterStation s B ;;
  findStationLocationInAnotherBody s B c toBodyA.

(** The station handed to [fromBodyA] is read with [getBodyMassCenterStation]
    of this body. *)
Definition findStationAtAnotherBodyMassCenter (s : State)
    (B fromBodyA : MobilizedBody) : Result Vec3 :=
  c <- getBodyMassCenterStation s B ;;
  findStationLocationInAnotherBody s fromBodyA c B.

End MassCenter.

(* ------------------------------------------------------------------------ *)
(** ** The distance-rate operators on IEEE doubles                           *)
(* ------------------------------------------------------------------------ *)

(** The distance operators choose their case by comparing a computed double
    with zero ([d==0], [s==0]).  Which case is taken depends on rounding and
    underflow, so for the case analysis the operators and what they call are
    transcribed once more with [Real] as the binary64 floating-point numbers:
    same expressions, same order of operations, [==] as the IEEE comparison. *)
Module Double.

Import PrimFloat.
Local Open Scope float_scope.

(** [typedef double Real;] *)
Definition Real : Type := float.

(** Modelled from the spec: [Vec3] with its componentwise arithmetic. *)
Record Vec3 : Type := mkVec3 { vx : Real; vy : Real; vz : Real }.

Definition Vec3_zero : Vec3 := mkVec3 0 0 0.

Definition vadd (a b : Vec3) : Vec3 :=
  mkVec3 (vx a + vx b) (vy a + vy b) (vz a + vz b).

Definition vsub (a b : Vec3) : Vec3 :=
  mkVec3 (vx a - vx b) (vy a - vy b) (vz a - vz b).

Definition vscale (s : Real) (v : Vec3) : Vec3 :=
  mkVec3 (s * vx v) (s * vy v) (s * vz v).

Definition vdiv (v : Vec3) (s : Real) : Vec3 :=
  mkVec3 (vx v / s) (vy v / s) (vz v / s).

Definition dot (a b : Vec3) : Real := vx a * vx b + vy a * vy b + vz a * vz b.

Definition cross (a b : Vec3) : Vec3 :=
  mkVec3 (vy a * vz b - vz a * vy b)
         (vz a * vx b - vx a * vz b)
         (vx a * vy b - vy a * vx b).

(** [v.norm()]: the square root of the sum of the squared components. *)
Definition norm (v : Vec3) : Real := sqrt (dot v v).

(** Every component compares equal to zero. *)
Definition isZero (v : Vec3) : bool :=
  ((vx v =? 0) && (vy v =? 0) && (vz v =? 0))%bool.

Record Mat33 : Type := mkMat33 { row0 : Vec3; row1 : Vec3; row2 : Vec3 }.

Definition Mat33_identity : Mat33 :=
  mkMat33 (mkVec3 1 0 0) (mkVec3 0 1 0) (mkVec3 0 0 1).

Definition mvmul (m : Mat33) (v : Vec3) : Vec3 :=
  mkVec3 (dot (row0 m) v) (dot (row1 m) v) (dot (row2 m) v).

Record Transform : Type := mkTransform { R : Mat33; p : Vec3 }.

Definition Transform_identity : Transform := mkTransform Mat33_identity Vec3_zero.

Definition xformStation (X : Transform) (s : Vec3) : Vec3 :=
  vadd (p X) (mvmul (R X) s).

Record SpatialVec : Type := mkSpatialVec { angular : Vec3; linear : Vec3 }.

Definition SpatialVec_zero : SpatialVec := mkSpatialVec Vec3_zero Vec3_zero.

Record State : Type := mkState {
  currentStage : Stage;
  qvec : list Real;
  uvec : list Real;
  cacheX_GB : MobilizedBodyIndex -> Transform;
  cacheV_GB : MobilizedBodyIndex -> SpatialVec;
  cacheA_GB : MobilizedBodyIndex -> SpatialVec
}.

(** Modelled from the spec: the stage check of the cache accessors. *)
Definition requireStage (s : State) (g : Stage) : Result unit :=
  if stage_leb g (currentStage s) then Ok tt else Throw StageViolation.

Definition getBodyTransform (s : State) (B : MobilizedBody) : Result Transform :=
  requireStage s Position ;;; Ok (cacheX_GB s B).

Definition getBodyVelocity (s : State) (B : MobilizedBody) : Result SpatialVec :=
  requireStage s Velocity ;;; Ok (cacheV_GB s B).

Definition getBodyAcceleration (s : State) (B : MobilizedBody) : Result SpatialVec :=
  requireStage s Acceleration ;;; Ok (cacheA_GB s B).

Definition getBodyRotation (s : State) (B : MobilizedBody) : Result Mat33 :=
  X <- getBodyTransform s B ;; Ok (R X).

Definition getBodyOriginLocation (s : State) (B : MobilizedBody) : Result Vec3 :=
  X <- getBodyTransform s B ;; Ok (p X).

Definition getBodyAngularVelocity (s : State) (B : MobilizedBody) : Result Vec3 :=
  V <- getBodyVelocity s B ;; Ok (angular V).

Definition getBodyOriginVelocity (s : State) (B : MobilizedBody) : Result Vec3 :=
  V <- getBodyVelocity s B ;; Ok (linear V).

Definition getBodyAngularAcceleration (s : State) (B : MobilizedBody) : Result Vec3 :=
  A <- getBodyAcceleration s B ;; Ok (angular A).

Definition getBodyOriginAcceleration (s : State) (B : MobilizedBody) : Result Vec3 :=
  A <- getBodyAcceleration s B ;; Ok (linear A).

Definition expressVectorInGroundFrame (s : State) (B : MobilizedBody)
    (vectorInB : Vec3) : Result Vec3 :=
  R_GB <- getBodyRotation s B ;; Ok (mvmul R_GB vectorInB).

Definition findStationLocationInGround (s : State) (B : MobilizedBody)
    (stationOnB : Vec3) : Result Vec3 :=
  X_GB <- getBodyTransform s B ;; Ok (xformStation X_GB stationOnB).

Definition findStationVelocityInGround (s : State) (B : MobilizedBody)
    (stationOnB : Vec3) : Result Vec3 :=
  w <- getBodyAngularVelocity s B ;;
  v <- getBodyOriginVelocity s B ;;
  r <- expressVectorInGroundFrame s B stationOnB ;;
  Ok (vadd v (cross w r)).

Definition findStationAccelerationInGround (s : State) (B : MobilizedBody)
    (stationOnB : Vec3) : Result Vec3 :=
  w <- getBodyAngularVelocity s B ;;
  b <- getBodyAngularAcceleration s B ;;
  a <- getBodyOriginAcceleration s B ;;
  r <- expressVectorInGroundFrame s B stationOnB ;;
  Ok (vadd (vadd a (cross b r)) (cross w (cross w r))).

Definition findStationLocationAndVelocityInGround (s : State) (B : MobilizedBody)
    (locationOnB : Vec3) : Result (Vec3 * Vec3) :=
  p_GB <- getBodyOriginLocation s B ;;
  p_BS_G <- expressVectorInGroundFrame s B locationOnB ;;
  let locationOnGround := vadd p_GB p_BS_G in
  w_GB <- getBodyAngularVelocity s B ;;
  v_GB <- getBodyOriginVelocity s B ;;
  let velocityInGround := vadd v_GB (cross w_GB p_BS_G) in
  Ok (locationOnGround, velocityInGround).

Definition findStationLocationVelocityAndAccelerationInGround (s : State)
    (B : MobilizedBody) (locationOnB : Vec3) : Result (Vec3 * Vec3 * Vec3) :=
  R_GB <- getBodyRotation s B ;;
  p_GB <- getBodyOriginLocation s B ;;
  let r := mvmul R_GB locationOnB in
  let locationOnGround := vadd p_GB r in
  w <- getBodyAngularVelocity s B ;;
  v <- getBodyOriginVelocity s B ;;
  b <- getBodyAngularAcceleration s B ;;
  a <- getBodyOriginAcceleration s B ;;
  let wXr := cross w r in
  let velocityInGround := vadd v wXr in
  let accelerationInGround := vadd (vadd a (cross b r)) (cross w wXr) in
  Ok (locationOnGround, velocityInGround, accelerationInGround).

Definition calcStationToStationDistanceTimeDerivative (s : State)
    (B : MobilizedBody) (locationOnBodyB : Vec3)
    (bodyA : MobilizedBody) (locationOnBodyA : Vec3) : Result Real :=
  if isSameMobilizedBody B bodyA then Ok 0
  else
    '(rB, vB) <- findStationLocationAndVelocityInGround s B locationOnBodyB ;;
    '(rA, vA) <- findStationLocationAndVelocityInGround s bodyA locationOnBodyA ;;
    let r := vsub rA rB in
    let v := vsub vA vB in
    let d := norm r in
    if d =? 0 then Ok (norm v)
    else Ok (dot v (vdiv r d)).

Definition calcStationToStationDistance2ndTimeDerivative (s : State)
    (B : MobilizedBody) (locationOnBodyB : Vec3)
    (bodyA : MobilizedBody) (locationOnBodyA : Vec3) : Result Real :=
  if isSameMobilizedBody B bodyA then Ok 0
  else
    '(rB, vB, aB) <-
       findStationLocationVelocityAndAccelerationInGround s B locationOnBodyB ;;
    '(rA, vA, aA) <-
       findStationLocationVelocityAndAccelerationInGround s bodyA locationOnBodyA ;;
    let r := vsub rA rB in
    let v := vsub vA vB in
    let a := vsub aA aB in
    let d := norm r in
    if d =? 0 then
      let speed := norm v in
      if speed =? 0 then Ok (norm a)
      else Ok (dot a (vdiv v speed))
    else
      let u := vdiv r d in
      let vp := vsub v (vscale (dot v u) u) in
      Ok (dot a u + dot vp v / d).

(** 2^-600: its square, 2^-1200, is below the smallest positive double. *)
Definition tiny : Real := 0x1p-600.

(** Two bodies whose frames coincide with Ground's; body 1 drifts along -x
    at 2^-600 and accelerates along +x at 1, Ground (body 0) is at rest.
    Seen from body 1, Ground's origin moves along +x and accelerates along
    -x. *)
Definition driftV_GB (B : MobilizedBodyIndex) : SpatialVec :=
  match B with
  | 1%nat => mkSpatialVec Vec3_zero (mkVec3 (- tiny) 0 0)
  | _ => SpatialVec_zero
  end.

Definition driftA_GB (B : MobilizedBodyIndex) : SpatialVec :=
  match B with
  | 1%nat => mkSpatialVec Vec3_zero (mkVec3 1 0 0)
  | _ => SpatialVec_zero
  end.

Definition driftState : State :=
  mkState Acceleration nil nil (fun _ => Transform_identity) driftV_GB driftA_GB.

End Double.

(* ======================================================================== *)
(** * Lemmas                                                                 *)
(* ======================================================================== *)

(** ** Frame algebra *)

Ltac vec_crush :=
  repeat match goal with
         | v : Vec3 |- _ => destruct v
         | m : Mat33 |- _ => destruct m
         | X : Transform |- _ => destruct X
         | V : SpatialVec |- _ => destruct V
         end;
  cbv [vadd vsub vneg vscale vdiv dot cross mvmul mmul transpose
       col0 col1 col2 row0 row1 row2 vx vy vz Mat33_identity Vec3_zero
       xformStation invXformStation compose invCompose invert R p
       rotSpatial negSpatial angular linear];
  repeat match goal with
         | |- mkVec3 _ _ _ = mkVec3 _ _ _ => f_equal
         | |- mkMat33 _ _ _ = mkMat33 _ _ _ => f_equal
         | |- mkTransform _ _ = mkTransform _ _ => f_equal
         | |- mkSpatialVec _ _ = mkSpatialVec _ _ => f_equal
         | |- Ok _ = Ok _ => f_equal
         | |- (_, _) = (_, _) => f_equal
         end;
  try ring.

Lemma mvmul_mmul (a b : Mat33) (v : Vec3) :
  mvmul (mmul a b) v = mvmul a (mvmul b v).
Proof. vec_crush. Qed.

Lemma mvmul_identity (v : Vec3) : mvmul Mat33_identity v = v.
Proof. vec_crush. Qed.

Lemma mmul_assoc (a b c : Mat33) : mmul (mmul a b) c = mmul a (mmul b c).
Proof. vec_crush. Qed.

Lemma mmul_identity_l (a : Mat33) : mmul Mat33_identity a = a.
Proof. vec_crush. Qed.

Lemma mmul_identity_r (a : Mat33) : mmul a Mat33_identity = a.
Proof. vec_crush. Qed.

Lemma transpose_mmul (a b : Mat33) :
  transpose (mmul a b) = mmul (transpose b) (transpose a).
Proof. vec_crush. Qed.

Lemma transpose_involutive (a : Mat33) : transpose (transpose a) = a.
Proof. vec_crush. Qed.

Lemma mvmul_vadd (m : Mat33) (a b : Vec3) :
  mvmul m (a + b)%vec = (mvmul m a + mvmul m b)%vec.
Proof. vec_crush. Qed.

Lemma mvmul_vsub (m : Mat33) (a b : Vec3) :
  mvmul m (a - b)%vec = (mvmul m a - mvmul m b)%vec.
Proof. vec_crush. Qed.

Lemma mvmul_vneg (m : Mat33) (a : Vec3) :
  mvmul m (- a)%vec = (- mvmul m a)%vec.
Proof. vec_crush. Qed.

Lemma vadd_vsub_cancel (a b : Vec3) : (a + b - a)%vec = b.
Proof. vec_crush. Qed.

Lemma vadd_vsub_back (a b : Vec3) : (a + (b - a))%vec = b.
Proof. vec_crush. Qed.

Lemma vsub_diag (a : Vec3) : (a - a)%vec = Vec3_zero.
Proof. vec_crush. Qed.

Lemma isRotation_identity : isRotation Mat33_identity.
Proof. split; vec_crush. Qed.

Lemma isRotation_transpose (m : Mat33) : isRotation m -> isRotation (transpose m).
Proof.
  intros [Hl Hr]. split; rewrite transpose_involutive; assumption.
Qed.

Lemma isRotation_mmul (a b : Mat33) :
  isRotation a -> isRotation b -> isRotation (mmul a b).
Proof.
  intros [Hal Har] [Hbl Hbr]. split; rewrite transpose_mmul.
  - rewrite mmul_assoc, <- (mmul_assoc (transpose a)), Hal, mmul_identity_l.
    exact Hbl.
  - rewrite mmul_assoc, <- (mmul_assoc b), Hbr, mmul_identity_l.
    exact Har.
Qed.

(** [~R * (R * v) = v] *)
Lemma rotate_back (m : Mat33) (v : Vec3) :
  isRotation m -> mvmul (transpose m) (mvmul m v) = v.
Proof.
  intros [Hl _]. rewrite <- mvmul_mmul, Hl. apply mvmul_identity.
Qed.

(** [R * (~R * v) = v] *)
Lemma rotate_forth (m : Mat33) (v : Vec3) :
  isRotation m -> mvmul m (mvmul (transpose m) v) = v.
Proof.
  intros [_ Hr]. rewrite <- mvmul_mmul, Hr. apply mvmul_identity.
Qed.

Lemma isRotation_quarterTurnZ : isRotation quarterTurnZ.
Proof. split; cbv [quarterTurnZ]; vec_crush. Qed.

Lemma vneg_vsub (a b : Vec3) : (- (a - b))%vec = (b - a)%vec.
Proof. vec_crush. Qed.

Lemma vadd_vneg (a : Vec3) : (a + - a)%vec = Vec3_zero.
Proof. vec_crush. Qed.

Lemma vneg_vneg (a : Vec3) : (- - a)%vec = a.
Proof. vec_crush. Qed.

Lemma vadd_zero_r (a : Vec3) : (a + Vec3_zero)%vec = a.
Proof. vec_crush. Qed.

Lemma mvmul_zero (m : Mat33) : mvmul m Vec3_zero = Vec3_zero.
Proof. vec_crush. Qed.

Lemma cross_zero_r (a : Vec3) : (a >< Vec3_zero)%vec = Vec3_zero.
Proof. vec_crush. Qed.

(** ** Transforms *)

Lemma compose_invert_r (X : Transform) :
  isTransform X -> compose X (invert X) = Transform_identity.
Proof.
  intros [Hl Hr]. unfold compose, invert, xformStation, Transform_identity; cbn [R p].
  rewrite Hr, <- mvmul_mmul, Hr, mvmul_identity, vadd_vneg. reflexivity.
Qed.

Lemma compose_invert_l (X : Transform) :
  isTransform X -> compose (invert X) X = Transform_identity.
Proof.
  intros [Hl Hr]. unfold compose, invert, xformStation, Transform_identity; cbn [R p].
  rewrite Hl, <- mvmul_vadd. f_equal.
  replace (- p X + p X)%vec with Vec3_zero by vec_crush.
  apply mvmul_zero.
Qed.

Lemma invert_involutive (X : Transform) :
  isTransform X -> invert (invert X) = X.
Proof.
  intros HX. destruct X as [m o]. unfold invert; cbn [R p].
  rewrite transpose_involutive, (mvmul_vneg (transpose m)), vneg_vneg.
  rewrite rotate_forth by exact HX. reflexivity.
Qed.

Lemma compose_identity_l (X : Transform) : compose Transform_identity X = X.
Proof.
  destruct X as [m o]. unfold compose, xformStation, Transform_identity; cbn [R p].
  rewrite mmul_identity_l, mvmul_identity. f_equal. vec_crush.
Qed.

Lemma isTransform_invCompose (X Y : Transform) :
  isTransform X -> isTransform Y -> isTransform (invCompose X Y).
Proof.
  intros HX HY. unfold isTransform, invCompose; cbn [R].
  apply isRotation_mmul; [apply isRotation_transpose|]; assumption.
Qed.

(** [~(~X_GA * X_GB) = ~X_GB * X_GA] *)
Lemma invert_invCompose (X Y : Transform) :
  isTransform X -> invert (invCompose X Y) = invCompose Y X.
Proof.
  intros HX. unfold invert, invCompose, invXformStation; cbn [R p].
  rewrite transpose_mmul, transpose_involutive. f_equal.
  rewrite mvmul_mmul, <- mvmul_vneg, rotate_forth by exact HX.
  rewrite vneg_vsub. reflexivity.
Qed.

(** ** Stages and cache access *)

Lemma stage_leb_trans (g h k : Stage) :
  stage_leb g h = true -> stage_leb h k = true -> stage_leb g k = true.
Proof.
  unfold stage_leb. rewrite !Nat.leb_le. lia.
Qed.

Lemma requireStage_ok (s : State) (g : Stage) :
  stage_leb g (currentStage s) = true -> requireStage s g = Ok tt.
Proof. intros H. unfold requireStage. rewrite H. reflexivity. Qed.

Lemma requireStage_fail (s : State) (g : Stage) :
  stage_leb g (currentStage s) = false -> requireStage s g = Throw StageViolation.
Proof. intros H. unfold requireStage. rewrite H. reflexivity. Qed.

Lemma getBodyTransform_ok (s : State) (B : MobilizedBody) :
  stage_leb Position (currentStage s) = true ->
  getBodyTransform s B = Ok (cacheX_GB s B).
Proof. intros H. unfold getBodyTransform. rewrite requireStage_ok by exact H. reflexivity. Qed.

Lemma getBodyVelocity_ok (s : State) (B : MobilizedBody) :
  stage_leb Velocity (currentStage s) = true ->
  getBodyVelocity s B = Ok (cacheV_GB s B).
Proof. intros H. unfold getBodyVelocity. rewrite requireStage_ok by exact H. reflexivity. Qed.

Lemma getBodyAcceleration_ok (s : State) (B : MobilizedBody) :
  stage_leb Acceleration (currentStage s) = true ->
  getBodyAcceleration s B = Ok (cacheA_GB s B).
Proof. intros H. unfold getBodyAcceleration. rewrite requireStage_ok by exact H. reflexivity. Qed.

Lemma realizedTo_weaken (g h : Stage) (s : State) :
  stage_leb g h = true -> realizedTo h s -> realizedTo g s.
Proof.
  intros Hgh [Hh Hrot]. split; [|exact Hrot].
  eapply stage_leb_trans; eassumption.
Qed.

Lemma armX_GB_isTransform (B : MobilizedBodyIndex) : isTransform (armX_GB B).
Proof.
  destruct B as [|[|B]]; exact isRotation_identity.
Qed.

Lemma armState_realized : realizedTo Acceleration armState.
Proof. split; [reflexivity | exact armX_GB_isTransform]. Qed.

(** Unfold the operators on a State whose stage facts are in the context. *)
Ltac run_operators :=
  unfold findStationLocationVelocityAndAccelerationInGround,
         findStationLocationAndVelocityInGround,
         findStationAccelerationInGround, findStationVelocityInGround,
         findBodyVelocityInAnotherBody, findBodyOriginLocationInAnotherBody,
         findStationAtGroundPoint, findStationLocationInGround,
         findBodyRotationInAnotherBody, findBodyTransformInAnotherBody,
         expressVectorInAnotherBodyFrame, expressGroundVectorInBodyFrame,
         expressVectorInGroundFrame,
         getBodyOriginAcceleration, getBodyAngularAcceleration,
         getBodyOriginVelocity, getBodyAngularVelocity,
         getBodyOriginLocation, getBodyRotation;
  rewrite ?getBodyTransform_ok, ?getBodyVelocity_ok, ?getBodyAcceleration_ok
    by assumption;
  cbn [bind].

(* ------------------------------------------------------------------------ *)
(** ** Stations and ground points (C10)                                      *)
(* ------------------------------------------------------------------------ *)

(** C10.  On a State realized to Position, for a body B: mapping a station
    to its Ground location with [findStationLocationInGround] and back with
    [findStationAtGroundPoint] returns the station, and mapping a Ground
    point to its station and back returns the Ground point: the operators
    apply X_GB and its inverse. *)
Theorem station_ground_point_round_trip
    (s : State) (B : MobilizedBody) (stationOnB locationInG : Vec3) :
  realizedTo Position s ->
  (g <- findStationLocationInGround s B stationOnB ;;
   findStationAtGroundPoint s B g) = Ok stationOnB
  /\
  (b <- findStationAtGroundPoint s B locationInG ;;
   findStationLocationInGround s B b) = Ok locationInG.
Proof.
  intros [Hstage Hrot]. specialize (Hrot B). split; run_operators.
  - unfold invXformStation, xformStation.
    rewrite vadd_vsub_cancel, rotate_back by exact Hrot. reflexivity.
  - unfold invXformStation, xformStation.
    rewrite rotate_forth by exact Hrot. rewrite vadd_vsub_back. reflexivity.
Qed.

Lemma station_ground_point_round_trip_witness :
  realizedTo Position armState /\
  (g <- findStationLocationInGround armState 1%nat (mkVec3 2 3 5) ;;
   findStationAtGroundPoint armState 1%nat g) = Ok (mkVec3 2 3 5).
Proof.
  assert (H : realizedTo Position armState)
    by (split; [reflexivity | exact armX_GB_isTransform]).
  split; [exact H|].
  exact (proj1 (station_ground_point_round_trip armState 1%nat
                  (mkVec3 2 3 5) (mkVec3 7 1 4) H)).
Defined.

(* ------------------------------------------------------------------------ *)
(** ** Relative transforms (C4)                                              *)
(* ------------------------------------------------------------------------ *)

(** C4.  On a State realized to Position, for bodies A and B,
    [findBodyTransformInAnotherBody] returns X_AB = ~X_GA * X_GB; the mirrored
    call returns its inverse X_BA; composing X_AB with that inverse gives the
    identity transform (in either order), so that inverting twice, or
    composing with the inverse and then with X_AB again, returns the original
    relative transform. *)
Theorem relative_transform_round_trip (s : State) (A B : MobilizedBody) :
  realizedTo Position s ->
  exists X_GA X_GB X_AB X_BA,
    getBodyTransform s A = Ok X_GA /\
    getBodyTransform s B = Ok X_GB /\
    findBodyTransformInAnotherBody s B A = Ok X_AB /\
    findBodyTransformInAnotherBody s A B = Ok X_BA /\
    X_AB = invCompose X_GA X_GB /\
    X_BA = invert X_AB /\
    compose X_AB X_BA = Transform_identity /\
    compose X_BA X_AB = Transform_identity /\
    invert (invert X_AB) = X_AB /\
    compose (compose X_AB (invert X_AB)) X_AB = X_AB.
Proof.
  intros [Hstage Hrot].
  pose proof (Hrot A) as HA. pose proof (Hrot B) as HB.
  pose proof (isTransform_invCompose _ _ HA HB) as HAB.
  exists (cacheX_GB s A), (cacheX_GB s B),
         (invCompose (cacheX_GB s A) (cacheX_GB s B)),
         (invCompose (cacheX_GB s B) (cacheX_GB s A)).
  repeat split; try (run_operators; reflexivity).
  - symmetry. apply invert_invCompose. exact HA.
  - rewrite <- (invert_invCompose _ _ HA). apply compose_invert_r. exact HAB.
  - rewrite <- (invert_invCompose _ _ HA). apply compose_invert_l. exact HAB.
  - apply invert_involutive. exact HAB.
  - rewrite compose_invert_r by exact HAB. apply compose_identity_l.
Qed.

Lemma relative_transform_round_trip_witness :
  realizedTo Position armState /\
  exists X_AB X_BA,
    findBodyTransformInAnotherBody armState 1%nat 0%nat = Ok X_AB /\
    findBodyTransformInAnotherBody armState 0%nat 1%nat = Ok X_BA /\
    compose X_AB X_BA = Transform_identity.
Proof.
  assert (H : realizedTo Position armState)
    by (split; [reflexivity | exact armX_GB_isTransform]).
  split; [exact H|].
  destruct (relative_transform_round_trip armState 0%nat 1%nat H)
    as (X_GA & X_GB & X_AB & X_BA & _ & _ & H1 & H2 & _ & _ & H3 & _).
  exists X_AB, X_BA. repeat split; assumption.
Defined.

(* ------------------------------------------------------------------------ *)
(** ** What the station operators return on a realized State                 *)
(* ------------------------------------------------------------------------ *)

Lemma velocity_stage_position (s : State) :
  stage_leb Velocity (currentStage s) = true ->
  stage_leb Position (currentStage s) = true.
Proof. apply stage_leb_trans. reflexivity. Qed.

Lemma acceleration_stage_velocity (s : State) :
  stage_leb Acceleration (currentStage s) = true ->
  stage_leb Velocity (currentStage s) = true.
Proof. apply stage_leb_trans. reflexivity. Qed.

Lemma findStationLocationInGround_ok (s : State) (B : MobilizedBody) (st : Vec3) :
  stage_leb Position (currentStage s) = true ->
  findStationLocationInGround s B st = Ok (xformStation (cacheX_GB s B) st).
Proof. intros Hp. run_operators. reflexivity. Qed.

Lemma findStationVelocityInGround_ok (s : State) (B : MobilizedBody) (st : Vec3) :
  stage_leb Velocity (currentStage s) = true ->
  findStationVelocityInGround s B st =
  Ok (linear (cacheV_GB s B)
      + angular (cacheV_GB s B) >< mvmul (R (cacheX_GB s B)) st)%vec.
Proof.
  intros Hv. pose proof (velocity_stage_position s Hv) as Hp.
  run_operators. reflexivity.
Qed.

Lemma findStationAccelerationInGround_ok (s : State) (B : MobilizedBody) (st : Vec3) :
  stage_leb Acceleration (currentStage s) = true ->
  findStationAccelerationInGround s B st =
  Ok (linear (cacheA_GB s B)
      + angular (cacheA_GB s B) >< mvmul (R (cacheX_GB s B)) st
      + angular (cacheV_GB s B)
        >< (angular (cacheV_GB s B) >< mvmul (R (cacheX_GB s B)) st))%vec.
Proof.
  intros Ha. pose proof (acceleration_stage_velocity s Ha) as Hv.
  pose proof (velocity_stage_position s Hv) as Hp.
  run_operators. reflexivity.
Qed.

(** ** Rigid shift of the linear velocity (C5) *)

(** C5.  On a State realized to Velocity, [findStationVelocityInGround]
    returns the body origin's linear velocity plus the cross product of the
    body's angular velocity with the station vector re-expressed in Ground:
    v_GB + w_GB x (R_GB * p). *)
Theorem station_velocity_is_rigid_shift
    (s : State) (B : MobilizedBody) (stationOnB : Vec3) :
  stage_leb Velocity (currentStage s) = true ->
  exists v_GB w_GB R_GB,
    getBodyOriginVelocity s B = Ok v_GB /\
    getBodyAngularVelocity s B = Ok w_GB /\
    getBodyRotation s B = Ok R_GB /\
    findStationVelocityInGround s B stationOnB =
      Ok (v_GB + w_GB >< mvmul R_GB stationOnB)%vec.
Proof.
  intros Hv. pose proof (velocity_stage_position s Hv) as Hp.
  exists (linear (cacheV_GB s B)), (angular (cacheV_GB s B)), (R (cacheX_GB s B)).
  repeat split; run_operators; reflexivity.
Qed.

Lemma station_velocity_is_rigid_shift_witness :
  stage_leb Velocity (currentStage armState) = true /\
  exists v_GB w_GB R_GB,
    getBodyOriginVelocity armState 1%nat = Ok v_GB /\
    getBodyAngularVelocity armState 1%nat = Ok w_GB /\
    getBodyRotation armState 1%nat = Ok R_GB /\
    findStationVelocityInGround armState 1%nat (mkVec3 1 0 0) =
      Ok (v_GB + w_GB >< mvmul R_GB (mkVec3 1 0 0))%vec.
Proof.
  split; [reflexivity|].
  apply (station_velocity_is_rigid_shift armState 1%nat (mkVec3 1 0 0)).
  reflexivity.
Defined.

(** ** Fused and separate station operators (C9) *)

(** C9.  [findStationLocationAndVelocityInGround] returns what
    [findStationLocationInGround] followed by [findStationVelocityInGround]
    returns, and [findStationLocationVelocityAndAccelerationInGround] what
    the three separate operators return in turn -- the same values, and the
    same exception on a State that is not realized far enough; on a State
    realized to Velocity (to Acceleration) the fused operator and each
    separate operator succeed. *)
Theorem fused_station_operators_agree
    (s : State) (B : MobilizedBody) (locationOnB : Vec3) :
  findStationLocationAndVelocityInGround s B locationOnB =
    (loc <- findStationLocationInGround s B locationOnB ;;
     vel <- findStationVelocityInGround s B locationOnB ;;
     Ok (loc, vel))
  /\
  findStationLocationVelocityAndAccelerationInGround s B locationOnB =
    (loc <- findStationLocationInGround s B locationOnB ;;
     vel <- findStationVelocityInGround s B locationOnB ;;
     acc <- findStationAccelerationInGround s B locationOnB ;;
     Ok (loc, vel, acc))
  /\
  (stage_leb Velocity (currentStage s) = true ->
   exists loc vel,
     findStationLocationAndVelocityInGround s B locationOnB = Ok (loc, vel) /\
     findStationLocationInGround s B locationOnB = Ok loc /\
     findStationVelocityInGround s B locationOnB = Ok vel)
  /\
  (stage_leb Acceleration (currentStage s) = true ->
   exists loc vel acc,
     findStationLocationVelocityAndAccelerationInGround s B locationOnB
       = Ok (loc, vel, acc) /\
     findStationLocationInGround s B locationOnB = Ok loc /\
     findStationVelocityInGround s B locationOnB = Ok vel /\
     findStationAccelerationInGround s B locationOnB = Ok acc).
Proof.
  assert (E2 : findStationLocationAndVelocityInGround s B locationOnB =
    (loc <- findStationLocationInGround s B locationOnB ;;
     vel <- findStationVelocityInGround s B locationOnB ;;
     Ok (loc, vel))).
  { unfold findStationLocationAndVelocityInGround, findStationLocationInGround,
      findStationVelocityInGround, expressVectorInGroundFrame,
      getBodyOriginLocation, getBodyRotation, getBodyAngularVelocity,
      getBodyOriginVelocity, getBodyTransform, getBodyVelocity, requireStage.
    destruct (stage_leb Position (currentStage s)); cbn [bind]; [|reflexivity].
    destruct (stage_leb Velocity (currentStage s)); cbn [bind]; reflexivity. }
  assert (E3 : findStationLocationVelocityAndAccelerationInGround s B locationOnB =
    (loc <- findStationLocationInGround s B locationOnB ;;
     vel <- findStationVelocityInGround s B locationOnB ;;
     acc <- findStationAccelerationInGround s B locationOnB ;;
     Ok (loc, vel, acc))).
  { unfold findStationLocationVelocityAndAccelerationInGround,
      findStationLocationInGround, findStationVelocityInGround,
      findStationAccelerationInGround, expressVectorInGroundFrame,
      getBodyOriginLocation, getBodyRotation, getBodyAngularVelocity,
      getBodyOriginVelocity, getBodyAngularAcceleration,
      getBodyOriginAcceleration, getBodyTransform, getBodyVelocity,
      getBodyAcceleration, requireStage.
    destruct (stage_leb Position (currentStage s)); cbn [bind]; [|reflexivity].
    destruct (stage_leb Velocity (currentStage s)); cbn [bind]; [|reflexivity].
    destruct (stage_leb Acceleration (currentStage s)); cbn [bind]; reflexivity. }
  split; [exact E2|]. split; [exact E3|]. split.
  - intros Hv. pose proof (velocity_stage_position s Hv) as Hp.
    rewrite E2.
    rewrite (findStationLocationInGround_ok s B locationOnB Hp),
            (findStationVelocityInGround_ok s B locationOnB Hv).
    eexists _, _. repeat split.
  - intros Ha. pose proof (acceleration_stage_velocity s Ha) as Hv.
    pose proof (velocity_stage_position s Hv) as Hp.
    rewrite E3.
    rewrite (findStationLocationInGround_ok s B locationOnB Hp),
            (findStationVelocityInGround_ok s B locationOnB Hv),
            (findStationAccelerationInGround_ok s B locationOnB Ha).
    eexists _, _, _. repeat split.
Qed.

Lemma fused_station_operators_agree_witness :
  stage_leb Acceleration (currentStage armState) = true /\
  exists loc vel acc,
    findStationLocationVelocityAndAccelerationInGround armState 1%nat (mkVec3 1 0 0)
      = Ok (loc, vel, acc) /\
    findStationLocationInGround armState 1%nat (mkVec3 1 0 0) = Ok loc /\
    findStationVelocityInGround armState 1%nat (mkVec3 1 0 0) = Ok vel /\
    findStationAccelerationInGround armState 1%nat (mkVec3 1 0 0) = Ok acc.
Proof.
  split; [reflexivity|].
  apply (proj2 (proj2 (proj2
           (fused_station_operators_agree armState 1%nat (mkVec3 1 0 0))))).
  reflexivity.
Defined.

(* ------------------------------------------------------------------------ *)
(** ** Distance derivatives at coincident stations (C2)                      *)
(* ------------------------------------------------------------------------ *)

Lemma norm_zero : norm Vec3_zero = 0.
Proof.
  unfold norm, dot, Vec3_zero; cbn [vx vy vz].
  replace (0 * 0 + 0 * 0 + 0 * 0) with 0 by ring. exact sqrt_0.
Qed.


Lemma vsub_eq_zero (a b : Vec3) : (a - b)%vec = Vec3_zero -> a = b.
Proof.
  destruct a, b. unfold vsub, Vec3_zero; cbn [vx vy vz].
  intros H. injection H as Hx Hy Hz. f_equal; lra.
Qed.

Lemma Ok_inj {A : Type} (a b : A) : Ok a = Ok b -> a = b.
Proof. intros H. injection H as H. exact H. Qed.

Lemma isSameMobilizedBody_distinct (B A : MobilizedBody) :
  B <> A -> isSameMobilizedBody B A = false.
Proof. intros H. unfold isSameMobilizedBody. apply Nat.eqb_neq. exact H. Qed.

Lemma findStationLocationAndVelocityInGround_ok
    (s : State) (B : MobilizedBody) (st : Vec3) :
  stage_leb Velocity (currentStage s) = true ->
  findStationLocationAndVelocityInGround s B st =
  Ok (xformStation (cacheX_GB s B) st,
      (linear (cacheV_GB s B)
       + angular (cacheV_GB s B) >< mvmul (R (cacheX_GB s B)) st)%vec).
Proof.
  intros Hv. pose proof (velocity_stage_position s Hv) as Hp.
  run_operators. reflexivity.
Qed.

Lemma findStationLocationVelocityAndAccelerationInGround_ok
    (s : State) (B : MobilizedBody) (st : Vec3) :
  stage_leb Acceleration (currentStage s) = true ->
  findStationLocationVelocityAndAccelerationInGround s B st =
  Ok (xformStation (cacheX_GB s B) st,
      (linear (cacheV_GB s B)
       + angular (cacheV_GB s B) >< mvmul (R (cacheX_GB s B)) st)%vec,
      (linear (cacheA_GB s B)
       + angular (cacheA_GB s B) >< mvmul (R (cacheX_GB s B)) st
       + angular (cacheV_GB s B)
         >< (angular (cacheV_GB s B) >< mvmul (R (cacheX_GB s B)) st))%vec).
Proof.
  intros Ha. pose proof (acceleration_stage_velocity s Ha) as Hv.
  pose proof (velocity_stage_position s Hv) as Hp.
  run_operators. reflexivity.
Qed.

(** A double that compares equal to zero is +0 or -0. *)
Lemma double_eqb_zero_cases (x : PrimFloat.float) :
  PrimFloat.eqb x PrimFloat.zero = true ->
  x = PrimFloat.zero \/ x = PrimFloat.neg_zero.
Proof.
  intros H. rewrite FloatAxioms.eqb_spec in H.
  replace (FloatOps.Prim2SF PrimFloat.zero) with (SpecFloat.S754_zero false) in H
    by (vm_compute; reflexivity).
  rewrite <- (FloatAxioms.SF2Prim_Prim2SF x).
  destruct (FloatOps.Prim2SF x) as [sg|sg| |sg m e]; cbn in H; try discriminate.
  - destruct sg; [right | left]; reflexivity.
  - destruct sg; discriminate.
  - destruct sg; discriminate.
Qed.

(** The computed norm of a zero separation is zero. *)
Lemma double_norm_of_zero (v : Double.Vec3) :
  Double.isZero v = true ->
  PrimFloat.eqb (Double.norm v) PrimFloat.zero = true.
Proof.
  destruct v as [x y z]. unfold Double.isZero; cbn [Double.vx Double.vy Double.vz].
  intros H. apply andb_true_iff in H. destruct H as [H Hz].
  apply andb_true_iff in H. destruct H as [Hx Hy].
  destruct (double_eqb_zero_cases x Hx), (double_eqb_zero_cases y Hy),
           (double_eqb_zero_cases z Hz); subst; vm_compute; reflexivity.
Qed.

Ltac run_double_operators :=
  unfold Double.findStationLocationVelocityAndAccelerationInGround,
         Double.findStationLocationAndVelocityInGround,
         Double.findStationAccelerationInGround,
         Double.findStationVelocityInGround,
         Double.findStationLocationInGround,
         Double.expressVectorInGroundFrame,
         Double.getBodyOriginAcceleration, Double.getBodyAngularAcceleration,
         Double.getBodyOriginVelocity, Double.getBodyAngularVelocity,
         Double.getBodyOriginLocation, Double.getBodyRotation,
         Double.getBodyTransform, Double.getBodyVelocity,
         Double.getBodyAcceleration, Double.requireStage;
  repeat match goal with
         | H : stage_leb _ (Double.currentStage _) = true |- _ => rewrite H
         end;
  cbn [bind].

Lemma double_velocity_stage_position (s : Double.State) :
  stage_leb Velocity (Double.currentStage s) = true ->
  stage_leb Position (Double.currentStage s) = true.
Proof. apply stage_leb_trans. reflexivity. Qed.

Lemma double_acceleration_stage_velocity (s : Double.State) :
  stage_leb Acceleration (Double.currentStage s) = true ->
  stage_leb Velocity (Double.currentStage s) = true.
Proof. apply stage_leb_trans. reflexivity. Qed.

(** C2, as the code has it on doubles.  For distinct bodies B and A on a
    realized State, let r, v and a be the computed Ground separation,
    relative velocity and relative acceleration of the stations PB and PA.
    When the stations coincide (r is the zero vector),
    [calcStationToStationDistanceTimeDerivative] returns the computed
    relative speed |v|, and [calcStationToStationDistance2ndTimeDerivative]
    returns the relative acceleration magnitude |a| when the computed speed
    |v| compares equal to zero, and the component dot(a, v/|v|) of the
    relative acceleration along the relative velocity otherwise.  Both
    return normally. *)
Theorem coincident_stations_computed_limits
    (s : Double.State) (B : MobilizedBody) (locationOnBodyB : Double.Vec3)
    (bodyA : MobilizedBody) (locationOnBodyA : Double.Vec3) :
  B <> bodyA ->
  (stage_leb Velocity (Double.currentStage s) = true ->
   exists rB rA vB vA,
     Double.findStationLocationInGround s B locationOnBodyB = Ok rB /\
     Double.findStationLocationInGround s bodyA locationOnBodyA = Ok rA /\
     Double.findStationVelocityInGround s B locationOnBodyB = Ok vB /\
     Double.findStationVelocityInGround s bodyA locationOnBodyA = Ok vA /\
     (Double.isZero (Double.vsub rA rB) = true ->
      Double.calcStationToStationDistanceTimeDerivative
        s B locationOnBodyB bodyA locationOnBodyA
      = Ok (Double.norm (Double.vsub vA vB))))
  /\
  (stage_leb Acceleration (Double.currentStage s) = true ->
   exists rB rA vB vA aB aA,
     Double.findStationLocationInGround s B locationOnBodyB = Ok rB /\
     Double.findStationLocationInGround s bodyA locationOnBodyA = Ok rA /\
     Double.findStationVelocityInGround s B locationOnBodyB = Ok vB /\
     Double.findStationVelocityInGround s bodyA locationOnBodyA = Ok vA /\
     Double.findStationAccelerationInGround s B locationOnBodyB = Ok aB /\
     Double.findStationAccelerationInGround s bodyA locationOnBodyA = Ok aA /\
     (Double.isZero (Double.vsub rA rB) = true ->
      (PrimFloat.eqb (Double.norm (Double.vsub vA vB)) PrimFloat.zero = true ->
       Double.calcStationToStationDistance2ndTimeDerivative
         s B locationOnBodyB bodyA locationOnBodyA
       = Ok (Double.norm (Double.vsub aA aB))) /\
      (PrimFloat.eqb (Double.norm (Double.vsub vA vB)) PrimFloat.zero = false ->
       Double.calcStationToStationDistance2ndTimeDerivative
         s B locationOnBodyB bodyA locationOnBodyA
       = Ok (Double.dot (Double.vsub aA aB)
               (Double.vdiv (Double.vsub vA vB)
                  (Double.norm (Double.vsub vA vB))))))).
Proof.
  intros Hdistinct. split.
  - intros Hv. pose proof (double_velocity_stage_position s Hv) as Hp.
    unfold Double.calcStationToStationDistanceTimeDerivative.
    rewrite (isSameMobilizedBody_distinct _ _ Hdistinct).
    run_double_operators. cbv zeta.
    eexists _, _, _, _. do 4 (split; [reflexivity|]).
    intros Hzero. unfold Double.xformStation in Hzero.
    pose proof (double_norm_of_zero _ Hzero) as Hd0.
    unfold PrimFloat.zero in Hd0. rewrite Hd0. reflexivity.
  - intros Ha. pose proof (double_acceleration_stage_velocity s Ha) as Hv.
    pose proof (double_velocity_stage_position s Hv) as Hp.
    unfold Double.calcStationToStationDistance2ndTimeDerivative.
    rewrite (isSameMobilizedBody_distinct _ _ Hdistinct).
    run_double_operators. cbv zeta.
    eexists _, _, _, _, _, _. do 6 (split; [reflexivity|]).
    intros Hzero. unfold Double.xformStation in Hzero.
    pose proof (double_norm_of_zero _ Hzero) as Hd0.
    unfold PrimFloat.zero in Hd0. rewrite Hd0.
    split; intros Hspeed; unfold PrimFloat.zero in Hspeed;
      rewrite Hspeed; reflexivity.
Qed.

Lemma coincident_stations_computed_limits_witness :
  (1 <> 0)%nat /\
  stage_leb Acceleration (Double.currentStage Double.driftState) = true /\
  exists rB rA vB vA aB aA,
    Double.findStationLocationInGround Double.driftState 1%nat Double.Vec3_zero
      = Ok rB /\
    Double.findStationLocationInGround Double.driftState 0%nat Double.Vec3_zero
      = Ok rA /\
    Double.findStationVelocityInGround Double.driftState 1%nat Double.Vec3_zero
      = Ok vB /\
    Double.findStationVelocityInGround Double.driftState 0%nat Double.Vec3_zero
      = Ok vA /\
    Double.findStationAccelerationInGround Double.driftState 1%nat Double.Vec3_zero
      = Ok aB /\
    Double.findStationAccelerationInGround Double.driftState 0%nat Double.Vec3_zero
      = Ok aA /\
    Double.isZero (Double.vsub rA rB) = true /\
    PrimFloat.eqb (Double.norm (Double.vsub vA vB)) PrimFloat.zero = true /\
    Double.calcStationToStationDistance2ndTimeDerivative
      Double.driftState 1%nat Double.Vec3_zero 0%nat Double.Vec3_zero
    = Ok (Double.norm (Double.vsub aA aB)).
Proof.
  assert (Hd : (1 <> 0)%nat) by discriminate.
  split; [exact Hd|]. split; [reflexivity|].
  destruct (proj2 (coincident_stations_computed_limits
                     Double.driftState 1%nat Double.Vec3_zero
                     0%nat Double.Vec3_zero Hd) eq_refl)
    as (rB & rA & vB & vA & aB & aA & H1 & H2 & H3 & H4 & H5 & H6 & Hlim).
  exists rB, rA, vB, vA, aB, aA.
  do 6 (split; [assumption|]).
  assert (Hr : Double.isZero (Double.vsub rA rB) = true).
  { vm_compute in H1, H2.
    injection H1 as <-. injection H2 as <-. vm_compute. reflexivity. }
  assert (Hs : PrimFloat.eqb (Double.norm (Double.vsub vA vB)) PrimFloat.zero
               = true).
  { vm_compute in H3, H4.
    injection H3 as <-. injection H4 as <-. vm_compute. reflexivity. }
  split; [exact Hr|]. split; [exact Hs|].
  exact (proj1 (Hlim Hr) Hs).
Defined.

(** C2 as the specification states it fails on [driftState]: the stations
    at the two body origins coincide and their relative velocity is
    (2^-600, 0, 0), which is not zero and points along +x; the relative
    acceleration is (-1, 0, 0), whose component along the relative velocity
    is -1.  The squares of the velocity components underflow, the computed
    speed is 0, and the operator returns the magnitude 1. *)
Lemma underflowing_relative_velocity_counterexample :
  exists rB rA vB vA aB aA,
    Double.findStationLocationInGround Double.driftState 1%nat Double.Vec3_zero
      = Ok rB /\
    Double.findStationLocationInGround Double.driftState 0%nat Double.Vec3_zero
      = Ok rA /\
    Double.findStationVelocityInGround Double.driftState 1%nat Double.Vec3_zero
      = Ok vB /\
    Double.findStationVelocityInGround Double.driftState 0%nat Double.Vec3_zero
      = Ok vA /\
    Double.findStationAccelerationInGround Double.driftState 1%nat Double.Vec3_zero
      = Ok aB /\
    Double.findStationAccelerationInGround Double.driftState 0%nat Double.Vec3_zero
      = Ok aA /\
    rA = rB /\
    Double.vsub vA vB = Double.mkVec3 Double.tiny PrimFloat.zero PrimFloat.zero /\
    Double.isZero (Double.vsub vA vB) = false /\
    Double.vsub aA aB = Double.mkVec3 (PrimFloat.opp PrimFloat.one) PrimFloat.zero PrimFloat.zero /\
    Double.dot (Double.vsub aA aB)
      (Double.vdiv (Double.vsub vA vB) Double.tiny) = PrimFloat.opp PrimFloat.one /\
    Double.calcStationToStationDistance2ndTimeDerivative
      Double.driftState 1%nat Double.Vec3_zero 0%nat Double.Vec3_zero
    = Ok PrimFloat.one /\
    Double.calcStationToStationDistance2ndTimeDerivative
      Double.driftState 1%nat Double.Vec3_zero 0%nat Double.Vec3_zero
    <> Ok (Double.dot (Double.vsub aA aB)
             (Double.vdiv (Double.vsub vA vB) Double.tiny)).
Proof.
  eexists _, _, _, _, _, _.
  do 6 (split; [vm_compute; reflexivity|]).
  split; [reflexivity|].
  split; [vm_compute; reflexivity|].
  split; [vm_compute; reflexivity|].
  split; [vm_compute; reflexivity|].
  split; [vm_compute; reflexivity|].
  split; [vm_compute; reflexivity|].
  vm_compute. intros H. discriminate H.
Qed.

(* ------------------------------------------------------------------------ *)
(** ** Relative velocity seen from either body (C3)                          *)
(* ------------------------------------------------------------------------ *)

Lemma findBodyVelocityInAnotherBody_ok (s : State) (B inBodyA : MobilizedBody) :
  stage_leb Velocity (currentStage s) = true ->
  findBodyVelocityInAnotherBody s B inBodyA =
  Ok (rotSpatial (transpose (R (cacheX_GB s inBodyA)))
        (mkSpatialVec
           (angular (cacheV_GB s B) - angular (cacheV_GB s inBodyA))%vec
           (linear (cacheV_GB s B) - linear (cacheV_GB s inBodyA)
            - angular (cacheV_GB s inBodyA)
              >< (p (cacheX_GB s B) - p (cacheX_GB s inBodyA)))%vec)).
Proof.
  intros Hv. pose proof (velocity_stage_position s Hv) as Hp.
  run_operators. reflexivity.
Qed.

Lemma findBodyRotationInAnotherBody_ok (s : State) (B inBodyA : MobilizedBody) :
  stage_leb Position (currentStage s) = true ->
  findBodyRotationInAnotherBody s B inBodyA =
  Ok (mmul (transpose (R (cacheX_GB s inBodyA))) (R (cacheX_GB s B))).
Proof. intros Hp. run_operators. reflexivity. Qed.

(** The two linear parts differ by the moving-origin term. *)
Lemma mirrored_linear_part (vA vB wA wB pA pB : Vec3) :
  (vB - vA - wA >< (pB - pA))%vec =
  (- (vA - vB - wB >< (pA - pB)) + (wB - wA) >< (pB - pA))%vec.
Proof. vec_crush. Qed.

(** C3, as the code has it.  On a State realized to Velocity, for bodies A
    and B: the angular part of [findBodyVelocityInAnotherBody] of B in A is
    the negated angular part of the mirrored call, re-expressed from B into
    A; the linear part is the negated, re-expressed linear part of the
    mirrored call plus ~R_GA * ((w_GB - w_GA) x (p_GB - p_GA)); the two
    spatial velocities agree whenever that cross product is zero. *)
Theorem mirrored_body_velocity (s : State) (A B : MobilizedBody) :
  realizedTo Velocity s ->
  exists X_GA X_GB V_GA V_GB V_AB V_BA R_AB,
    getBodyTransform s A = Ok X_GA /\
    getBodyTransform s B = Ok X_GB /\
    getBodyVelocity s A = Ok V_GA /\
    getBodyVelocity s B = Ok V_GB /\
    findBodyVelocityInAnotherBody s B A = Ok V_AB /\
    findBodyVelocityInAnotherBody s A B = Ok V_BA /\
    findBodyRotationInAnotherBody s B A = Ok R_AB /\
    angular V_AB = mvmul R_AB (- angular V_BA)%vec /\
    linear V_AB =
      (mvmul R_AB (- linear V_BA)
       + mvmul (transpose (R X_GA))
           ((angular V_GB - angular V_GA) >< (p X_GB - p X_GA)))%vec /\
    (((angular V_GB - angular V_GA) >< (p X_GB - p X_GA))%vec = Vec3_zero ->
     V_AB = rotSpatial R_AB (negSpatial V_BA)).
Proof.
  intros [Hv Hrot]. pose proof (velocity_stage_position s Hv) as Hp.
  pose proof (Hrot B) as HB.
  rewrite !findBodyVelocityInAnotherBody_ok by exact Hv.
  rewrite findBodyRotationInAnotherBody_ok by exact Hp.
  rewrite !getBodyTransform_ok by exact Hp.
  rewrite !getBodyVelocity_ok by exact Hv.
  eexists _, _, _, _, _, _, _. do 7 (split; [reflexivity|]).
  set (RA := R (cacheX_GB s A)). set (RB := R (cacheX_GB s B)).
  assert (Hang :
    mvmul (transpose RA)
      (angular (cacheV_GB s B) - angular (cacheV_GB s A))%vec =
    mvmul (mmul (transpose RA) RB)
      (- mvmul (transpose RB)
           (angular (cacheV_GB s A) - angular (cacheV_GB s B)))%vec).
  { rewrite mvmul_mmul, <- mvmul_vneg, rotate_forth by exact HB.
    rewrite vneg_vsub. reflexivity. }
  assert (Hlin :
    mvmul (transpose RA)
      (linear (cacheV_GB s B) - linear (cacheV_GB s A)
       - angular (cacheV_GB s A) >< (p (cacheX_GB s B) - p (cacheX_GB s A)))%vec =
    (mvmul (mmul (transpose RA) RB)
       (- mvmul (transpose RB)
            (linear (cacheV_GB s A) - linear (cacheV_GB s B)
             - angular (cacheV_GB s B)
               >< (p (cacheX_GB s A) - p (cacheX_GB s B))))
     + mvmul (transpose RA)
         ((angular (cacheV_GB s B) - angular (cacheV_GB s A))
          >< (p (cacheX_GB s B) - p (cacheX_GB s A))))%vec).
  { rewrite mvmul_mmul, <- mvmul_vneg, rotate_forth by exact HB.
    rewrite <- mvmul_vadd. f_equal. apply mirrored_linear_part. }
  cbn [rotSpatial negSpatial angular linear].
  split; [exact Hang|]. split; [exact Hlin|].
  intros Hzero. rewrite Hzero, mvmul_zero, vadd_zero_r in Hlin.
  unfold rotSpatial at 1 3. cbn [angular linear].
  rewrite Hang, Hlin. reflexivity.
Qed.

Lemma mirrored_body_velocity_witness :
  realizedTo Velocity armState /\
  exists V_AB V_BA R_AB,
    findBodyVelocityInAnotherBody armState 1%nat 0%nat = Ok V_AB /\
    findBodyVelocityInAnotherBody armState 0%nat 1%nat = Ok V_BA /\
    findBodyRotationInAnotherBody armState 1%nat 0%nat = Ok R_AB /\
    angular V_AB = mvmul R_AB (- angular V_BA)%vec.
Proof.
  assert (H : realizedTo Velocity armState)
    by (split; [reflexivity | exact armX_GB_isTransform]).
  split; [exact H|].
  destruct (mirrored_body_velocity armState 0%nat 1%nat H)
    as (X_GA & X_GB & V_GA & V_GB & V_AB & V_BA & R_AB
        & _ & _ & _ & _ & H1 & H2 & H3 & H4 & _).
  exists V_AB, V_BA, R_AB. repeat split; assumption.
Defined.

(** C3 as the specification states it fails on the turning arm: body 1 moves
    in Ground with linear velocity (0,1,0), while Ground's origin is at rest
    in body 1, so negating and re-expressing the mirrored result gives a
    zero linear part. *)
Lemma mirrored_body_velocity_counterexample :
  realizedTo Velocity armState /\
  exists V_AB V_BA R_AB,
    findBodyVelocityInAnotherBody armState 1%nat 0%nat = Ok V_AB /\
    findBodyVelocityInAnotherBody armState 0%nat 1%nat = Ok V_BA /\
    findBodyRotationInAnotherBody armState 1%nat 0%nat = Ok R_AB /\
    vy (linear V_AB) = 1 /\
    vy (linear (rotSpatial R_AB (negSpatial V_BA))) = 0 /\
    V_AB <> rotSpatial R_AB (negSpatial V_BA).
Proof.
  split; [split; [reflexivity | exact armX_GB_isTransform]|].
  rewrite !findBodyVelocityInAnotherBody_ok by reflexivity.
  rewrite findBodyRotationInAnotherBody_ok by reflexivity.
  eexists _, _, _. do 3 (split; [reflexivity|]).
  assert (H1 : vy (linear
            (rotSpatial (transpose (R (cacheX_GB armState 0%nat)))
               (mkSpatialVec
                  (angular (cacheV_GB armState 1%nat)
                   - angular (cacheV_GB armState 0%nat))%vec
                  (linear (cacheV_GB armState 1%nat)
                   - linear (cacheV_GB armState 0%nat)
                   - angular (cacheV_GB armState 0%nat)
                     >< (p (cacheX_GB armState 1%nat)
                         - p (cacheX_GB armState 0%nat)))%vec))) = 1).
  { cbv [armState cacheX_GB cacheV_GB armX_GB armV_GB Transform_identity
         SpatialVec_zero rotSpatial linear angular mvmul transpose dot
         col0 col1 col2 row0 row1 row2 vadd vsub vneg cross vx vy vz
         Mat33_identity Vec3_zero R p]. lra. }
  assert (H0 : vy (linear
            (rotSpatial
               (mmul (transpose (R (cacheX_GB armState 0%nat)))
                     (R (cacheX_GB armState 1%nat)))
               (negSpatial
                  (rotSpatial (transpose (R (cacheX_GB armState 1%nat)))
                     (mkSpatialVec
                        (angular (cacheV_GB armState 0%nat)
                         - angular (cacheV_GB armState 1%nat))%vec
                        (linear (cacheV_GB armState 0%nat)
                         - linear (cacheV_GB armState 1%nat)
                         - angular (cacheV_GB armState 1%nat)
                           >< (p (cacheX_GB armState 0%nat)
                               - p (cacheX_GB armState 1%nat)))%vec))))) = 0).
  { cbv [armState cacheX_GB cacheV_GB armX_GB armV_GB Transform_identity
         SpatialVec_zero rotSpatial negSpatial linear angular mvmul mmul
         transpose dot col0 col1 col2 row0 row1 row2 vadd vsub vneg cross
         vx vy vz Mat33_identity Vec3_zero R p]. lra. }
  split; [exact H1|]. split; [exact H0|].
  intros Heq. rewrite Heq in H1. rewrite H1 in H0. lra.
Qed.

(* ------------------------------------------------------------------------ *)
(** ** Reading the cache before its stage is realized (C1)                   *)
(* ------------------------------------------------------------------------ *)

Lemma stage_leb_false_lt (g h : Stage) :
  stage_leb g h = false <-> (stageRank h < stageRank g)%nat.
Proof. unfold stage_leb. apply Nat.leb_gt. Qed.

Lemma stageRank_stagePrev (g : Stage) :
  stageRank (stagePrev g) = Nat.pred (stageRank g).
Proof. destruct g; reflexivity. Qed.

Lemma stageRank_inj (g h : Stage) : stageRank g = stageRank h -> g = h.
Proof. destruct g, h; cbn; intros H; try reflexivity; discriminate. Qed.

(** A realize request other than realize(Position) cannot make Position
    valid. *)
Lemma realize_keeps_below_Position
    (calcCache : Stage -> State -> State) (s s' : State) (g : Stage) :
  g <> Position ->
  stage_leb Position (currentStage s) = false ->
  realize calcCache s g = Ok s' ->
  stage_leb Position (currentStage s') = false.
Proof.
  intros Hg Hbelow. unfold realize.
  destruct (stage_leb g (currentStage s)) eqn:Hvalid.
  - intros H. injection H as <-. exact Hbelow.
  - destruct (stage_leb (stagePrev g) (currentStage s)) eqn:Hprev;
      [|discriminate].
    intros H. injection H as <-. cbn [currentStage].
    apply stage_leb_false_lt. apply stage_leb_false_lt in Hbelow.
    unfold stage_leb in Hprev. apply Nat.leb_le in Hprev.
    rewrite stageRank_stagePrev in Hprev.
    assert (Hne : stageRank g <> stageRank Position)
      by (intros E; apply Hg, stageRank_inj, E).
    cbn [stageRank] in *. lia.
Qed.

Lemma realizeAll_keeps_below_Position
    (calcCache : Stage -> State -> State) (requests : list Stage) :
  Forall (fun g => g <> Position) requests ->
  forall s, stage_leb Position (currentStage s) = false ->
  stage_leb Position (currentStage (realizeAll calcCache s requests)) = false.
Proof.
  induction 1 as [|g rest Hg _ IH]; intros s Hbelow; cbn [realizeAll].
  - exact Hbelow.
  - destruct (realize calcCache s g) as [s'|e] eqn:Hr.
    + apply IH. eapply realize_keeps_below_Position; eassumption.
    + apply IH. exact Hbelow.
Qed.

Lemma succeeds_Ok {A : Type} (a : A) : succeeds (Ok a).
Proof. exists a. reflexivity. Qed.

Lemma not_succeeds_Throw {A : Type} (e : Exception) : ~ succeeds (@Throw A e).
Proof. intros [a H]. discriminate. Qed.

Lemma read_succeeds_iff_valid (s : State) (g : Stage) {A : Type} (a : A) :
  succeeds (requireStage s g ;;; Ok a) <-> stage_leb g (currentStage s) = true.
Proof.
  unfold requireStage. destruct (stage_leb g (currentStage s)); cbn [bind].
  - split; [reflexivity | intros _; apply succeeds_Ok].
  - split; [intros H; destruct (not_succeeds_Throw _ H) | discriminate].
Qed.

(** C1.  Take a State whose ceiling is Topology (freshly constructed,
    topology finalized) and let any sequence of realize requests other than
    realize(Position) run on it.  Reading X_GB with [getBodyTransform] then
    fails with [StageViolation], and so do the inline readers built on it.
    In general a read of a quantity cached at Position, Velocity or
    Acceleration succeeds exactly when that stage is currently valid, and
    fails with [StageViolation] otherwise. *)
Theorem read_before_realize_is_stage_violation
    (calcCache : Stage -> State -> State) (s0 : State)
    (requests : list Stage) (B : MobilizedBody) (station : Vec3) :
  currentStage s0 = Topology ->
  Forall (fun g => g <> Position) requests ->
  let s := realizeAll calcCache s0 requests in
  getBodyTransform s B = Throw StageViolation /\
  getBodyRotation s B = Throw StageViolation /\
  getBodyOriginLocation s B = Throw StageViolation /\
  findStationLocationInGround s B station = Throw StageViolation /\
  (forall s' : State,
     (succeeds (getBodyTransform s' B) <->
        stage_leb Position (currentStage s') = true) /\
     (succeeds (getBodyVelocity s' B) <->
        stage_leb Velocity (currentStage s') = true) /\
     (succeeds (getBodyAcceleration s' B) <->
        stage_leb Acceleration (currentStage s') = true) /\
     (stage_leb Position (currentStage s') = false ->
        getBodyTransform s' B = Throw StageViolation) /\
     (stage_leb Velocity (currentStage s') = false ->
        getBodyVelocity s' B = Throw StageViolation) /\
     (stage_leb Acceleration (currentStage s') = false ->
        getBodyAcceleration s' B = Throw StageViolation)).
Proof.
  intros Hfresh Hreq s.
  assert (Hbelow : stage_leb Position (currentStage s) = false).
  { apply realizeAll_keeps_below_Position; [exact Hreq|].
    rewrite Hfresh. reflexivity. }
  assert (HX : getBodyTransform s B = Throw StageViolation).
  { unfold getBodyTransform. rewrite requireStage_fail by exact Hbelow.
    reflexivity. }
  split; [exact HX|].
  split; [unfold getBodyRotation; rewrite HX; reflexivity|].
  split; [unfold getBodyOriginLocation; rewrite HX; reflexivity|].
  split; [unfold findStationLocationInGround; rewrite HX; reflexivity|].
  intros s'.
  split; [apply read_succeeds_iff_valid|].
  split; [apply read_succeeds_iff_valid|].
  split; [apply read_succeeds_iff_valid|].
  repeat split; intros H;
    unfold getBodyTransform, getBodyVelocity, getBodyAcceleration;
    rewrite requireStage_fail by exact H; reflexivity.
Qed.

Lemma read_before_realize_is_stage_violation_witness :
  currentStage armStateFinalized = Topology /\
  Forall (fun g => g <> Position) [Model; Instance; Time; Velocity] /\
  getBodyTransform
    (realizeAll (fun _ s => s) armStateFinalized [Model; Instance; Time; Velocity])
    1%nat = Throw StageViolation.
Proof.
  assert (Hreq : Forall (fun g => g <> Position) [Model; Instance; Time; Velocity])
    by (repeat constructor; discriminate).
  split; [reflexivity|]. split; [exact Hreq|].
  exact (proj1 (read_before_realize_is_stage_violation
                  (fun _ s => s) armStateFinalized
                  [Model; Instance; Time; Velocity] 1%nat Vec3_zero
                  eq_refl Hreq)).
Defined.

(* ------------------------------------------------------------------------ *)
(** ** Unimplemented operators (C6)                                          *)
(* ------------------------------------------------------------------------ *)

Lemma unimplemented_assertion_fails (msg : string) {A : Type} (a : A) :
  isAssert (SimTK_ASSERT_ALWAYS (negb (literalAsCondition "unimplemented method")) msg
            ;;; Ok a).
Proof.
  unfold SimTK_ASSERT_ALWAYS, literalAsCondition; cbn [negb bind].
  eexists _, _. reflexivity.
Qed.

Lemma isAssert_not_Ok {A : Type} (c : Result A) (a : A) : isAssert c -> c <> Ok a.
Proof. intros (cond & msg & ->). discriminate. Qed.

(** C6.  Whatever their arguments, [getMobilizerAcceleration],
    [calcBodyMovingPointVelocityInBody],
    [calcBodyMovingPointAccelerationInBody],
    [calcMovingPointToPointDistanceTimeDerivative] and
    [calcMovingPointToPointDistance2ndTimeDerivative] raise the assertion
    exception; none of them returns a value. *)
Theorem unimplemented_operators_always_assert
    (NaN : Real) (newSpatialVec : SpatialVec) (s : State) (B A : MobilizedBody)
    (pB vB aB pA vA aA : Vec3) :
  isAssert (getMobilizerAcceleration newSpatialVec s B) /\
  isAssert (calcBodyMovingPointVelocityInBody NaN s B pB vB A) /\
  isAssert (calcBodyMovingPointAccelerationInBody NaN s B pB vB aB A) /\
  isAssert (calcMovingPointToPointDistanceTimeDerivative NaN s B pB vB A pA vA) /\
  isAssert (calcMovingPointToPointDistance2ndTimeDerivative
              NaN s B pB vB aB A pA vA aA) /\
  (forall V, getMobilizerAcceleration newSpatialVec s B <> Ok V) /\
  (forall v, calcBodyMovingPointVelocityInBody NaN s B pB vB A <> Ok v) /\
  (forall v, calcBodyMovingPointAccelerationInBody NaN s B pB vB aB A <> Ok v) /\
  (forall r, calcMovingPointToPointDistanceTimeDerivative NaN s B pB vB A pA vA
             <> Ok r) /\
  (forall r, calcMovingPointToPointDistance2ndTimeDerivative
               NaN s B pB vB aB A pA vA aA <> Ok r).
Proof.
  repeat split;
    try (intros x; apply isAssert_not_Ok);
    apply unimplemented_assertion_fails.
Qed.

(* ------------------------------------------------------------------------ *)
(** ** The index and level invariant of the body tree (C7)                   *)
(* ------------------------------------------------------------------------ *)

Lemma calcLevels_snoc (t : list MobilizedBodyNode) (n : MobilizedBodyNode) :
  forall done,
    calcLevels (t ++ [n]) done =
    calcLevels t done ++
      [match parentIndex n with
       | None => 0%nat
       | Some P => (nth P (calcLevels t done) 0 + 1)%nat
       end].
Proof.
  induction t as [|m t IH]; intros done; cbn [calcLevels app].
  - reflexivity.
  - apply IH.
Qed.

Lemma calcLevels_length (t : list MobilizedBodyNode) :
  forall done,
    List.length (calcLevels t done) = (List.length done + List.length t)%nat.
Proof.
  induction t as [|m t IH]; intros done; cbn [calcLevels List.length].
  - lia.
  - rewrite IH, length_app. cbn [List.length]. lia.
Qed.

Lemma addBody_Ok (t t' : BodyTree) (parent : MobilizedBodyIndex)
    (F M : Transform) (m : Mobilizer) :
  addBody t parent F M m = Ok t' ->
  (parent < List.length t)%nat /\ t' = t ++ [mkNode (Some parent) F M m].
Proof.
  unfold addBody. destruct (parent <? List.length t)%nat eqn:Hlt; [|discriminate].
  intros H. injection H as <-. apply Nat.ltb_lt in Hlt. split; [exact Hlt | reflexivity].
Qed.

(** Every constructed tree starts with Ground, and each later node has a
    parent of smaller index whose level is one less. *)
Lemma constructed_invariant (t : BodyTree) :
  constructed t ->
  (exists rest, t = groundNode :: rest) /\
  List.length (calcLevels t []) = List.length t /\
  nth_error (calcLevels t []) 0 = Some 0%nat /\
  forall B n,
    (0 < B)%nat -> nth_error t B = Some n ->
    exists P l,
      parentIndex n = Some P /\ (P < B)%nat /\
      nth_error (calcLevels t []) P = Some l /\
      nth_error (calcLevels t []) B = Some (l + 1)%nat.
Proof.
  induction 1 as [|t parent F M m t' Hc IH Hadd].
  - split; [exists []; reflexivity|]. split; [reflexivity|].
    split; [reflexivity|].
    intros B n HB Hn. destruct B as [|B]; [lia|].
    cbn in Hn. destruct B; discriminate.
  - destruct IH as ((rest & Ht) & Hlen & Hzero & Hnodes).
    apply addBody_Ok in Hadd. destruct Hadd as [Hparent ->].
    rewrite calcLevels_snoc. cbn [parentIndex].
    set (L := calcLevels t []) in *.
    assert (Hpos : (0 < List.length t)%nat) by (rewrite Ht; cbn; lia).
    split; [exists (rest ++ [mkNode (Some parent) F M m]); rewrite Ht; reflexivity|].
    split; [rewrite !length_app, Hlen; reflexivity|].
    split; [rewrite nth_error_app1 by lia; exact Hzero|].
    intros B n HB Hn.
    destruct (Nat.lt_ge_cases B (List.length t)) as [Hold|Hnew].
    + rewrite nth_error_app1 in Hn by exact Hold.
      destruct (Hnodes B n HB Hn) as (P & l & HP & HPB & HlP & HlB).
      exists P, l. split; [exact HP|]. split; [exact HPB|].
      rewrite !nth_error_app1 by lia. split; assumption.
    + rewrite nth_error_app2 in Hn by exact Hnew.
      destruct (B - List.length t)%nat as [|k] eqn:Hk;
        [|cbn in Hn; destruct k; discriminate].
      cbn in Hn. injection Hn as <-. cbn [parentIndex].
      assert (HB' : B = List.length t) by lia. subst B.
      exists parent, (nth parent L 0%nat).
      split; [reflexivity|]. split; [exact Hparent|]. split.
      * rewrite nth_error_app1 by lia. apply nth_error_nth'. lia.
      * rewrite nth_error_app2 by lia.
        replace (List.length t - List.length L)%nat with 0%nat by lia.
        reflexivity.
Qed.

(** C7.  In the topology finalized from any constructed tree: Ground has
    index 0, no parent and level 0; every other node has a parent whose
    index is smaller than its own and whose level is one less than its own.
    Since every tree that [addBody] yields from a constructed tree is again
    constructed, the operations preserve this. *)
Theorem parent_index_and_level_invariant (t : BodyTree) :
  constructed t ->
  isGround GroundIndex = true /\
  (forall P, getParentMobilizedBody (finalizeTopology t) GroundIndex <> Ok P) /\
  getLevelInMultibodyTree (finalizeTopology t) GroundIndex = Ok 0%nat /\
  (forall B,
     (0 < B < List.length t)%nat ->
     exists P l,
       getParentMobilizedBody (finalizeTopology t) B = Ok P /\
       (P < B)%nat /\
       getLevelInMultibodyTree (finalizeTopology t) P = Ok l /\
       getLevelInMultibodyTree (finalizeTopology t) B = Ok (l + 1)%nat) /\
  (forall parent F M m t',
     addBody t parent F M m = Ok t' ->
     constructed t' /\ List.length t' = S (List.length t) /\ (parent < List.length t)%nat).
Proof.
  intros Hc.
  destruct (constructed_invariant t Hc) as ((rest & Ht) & Hlen & Hzero & Hnodes).
  unfold getParentMobilizedBody, getLevelInMultibodyTree, finalizeTopology;
    cbn [nodes levels].
  split; [reflexivity|].
  split; [rewrite Ht; cbn; discriminate|].
  split; [unfold GroundIndex; rewrite Hzero; reflexivity|].
  split.
  - intros B [HB Hlt].
    destruct (nth_error t B) as [n|] eqn:Hn;
      [|apply nth_error_None in Hn; lia].
    destruct (Hnodes B n HB Hn) as (P & l & HP & HPB & HlP & HlB).
    exists P, l. rewrite HP, HlP, HlB. repeat split. exact HPB.
  - intros parent F M m t' Hadd.
    split; [econstructor; eassumption|].
    apply addBody_Ok in Hadd. destruct Hadd as [Hparent ->].
    split; [rewrite length_app; cbn [List.length]; lia | exact Hparent].
Qed.

Lemma twoBodyChain_constructed :
  constructed
    (groundOnly
       ++ [mkNode (Some 0%nat) Transform_identity Transform_identity noMobilities]
       ++ [mkNode (Some 1%nat) Transform_identity Transform_identity noMobilities]).
Proof.
  eapply constructed_add with (parent := 1%nat);
    [eapply constructed_add with (parent := 0%nat);
       [exact constructed_ground | reflexivity]
    | reflexivity].
Qed.

Lemma parent_index_and_level_invariant_witness :
  constructed
    (groundOnly
       ++ [mkNode (Some 0%nat) Transform_identity Transform_identity noMobilities]
       ++ [mkNode (Some 1%nat) Transform_identity Transform_identity noMobilities])
  /\
  getLevelInMultibodyTree
    (finalizeTopology
       (groundOnly
          ++ [mkNode (Some 0%nat) Transform_identity Transform_identity noMobilities]
          ++ [mkNode (Some 1%nat) Transform_identity Transform_identity noMobilities]))
    GroundIndex = Ok 0%nat.
Proof.
  split; [exact twoBodyChain_constructed|].
  exact (proj1 (proj2 (proj2
           (parent_index_and_level_invariant _ twoBodyChain_constructed)))).
Defined.

(* ------------------------------------------------------------------------ *)
(** ** Fitting setters on a joint of the other character (C8)                *)
(* ------------------------------------------------------------------------ *)

Lemma prefixSums_length (counts : list nat) :
  forall start, List.length (prefixSums counts start) = List.length counts.
Proof.
  induction counts as [|c rest IH]; intros start; cbn [prefixSums List.length].
  - reflexivity.
  - rewrite IH. reflexivity.
Qed.

Lemma firstQIndex_defined (t : BodyTree) (B : MobilizedBody) (n : MobilizedBodyNode) :
  nth_error t B = Some n ->
  exists first, nth_error (firstQIndex (finalizeTopology t)) B = Some first.
Proof.
  intros Hn. cbn [finalizeTopology firstQIndex].
  destruct (nth_error (prefixSums (map (fun n => nq (mobilizer n)) t) 0) B)
    as [first|] eqn:Hf.
  - exists first. reflexivity.
  - apply nth_error_None in Hf.
    rewrite prefixSums_length, length_map in Hf.
    assert (nth_error t B <> None) by (rewrite Hn; discriminate).
    apply nth_error_Some in H. lia.
Qed.

(** C8.  For a mobilizer of a finalized tree and any State: the
    rotational-only setter and the translational-only setter always return
    normally; on a purely translational joint [setQToFitRotation] returns the
    State unchanged, on a purely rotational joint the translational-only
    setter returns the State unchanged, and in both cases re-reading a
    coordinate afterwards gives what it gave before. *)
Theorem fitting_setter_of_other_character_is_noop
    (t : BodyTree) (s : State) (B : MobilizedBody) (n : MobilizedBodyNode)
    (R_FM : Rotation) (p_FM : Vec3) :
  nth_error t B = Some n ->
  succeeds (setQToFitRotation (finalizeTopology t) s B R_FM) /\
  succeeds (setQToFitTranslationOnly (finalizeTopology t) s B p_FM) /\
  (purelyTranslational (mobilizer n) = true ->
   setQToFitRotation (finalizeTopology t) s B R_FM = Ok s /\
   forall which,
     (s' <- setQToFitRotation (finalizeTopology t) s B R_FM ;;
      getOneQ (finalizeTopology t) s' B which)
     = getOneQ (finalizeTopology t) s B which) /\
  (purelyRotational (mobilizer n) = true ->
   setQToFitTranslationOnly (finalizeTopology t) s B p_FM = Ok s /\
   forall which,
     (s' <- setQToFitTranslationOnly (finalizeTopology t) s B p_FM ;;
      getOneQ (finalizeTopology t) s' B which)
     = getOneQ (finalizeTopology t) s B which).
Proof.
  intros Hn. destruct (firstQIndex_defined t B n Hn) as [first Hf].
  assert (Hnodes : nth_error (nodes (finalizeTopology t)) B = Some n) by exact Hn.
  unfold setQToFitRotation, setQToFitTranslationOnly, purelyTranslational,
    purelyRotational.
  rewrite Hnodes, Hf.
  split; [destruct (hasRotationalQ (mobilizer n)); apply succeeds_Ok|].
  split; [destruct (hasTranslationalQ (mobilizer n)); apply succeeds_Ok|].
  split.
  - intros H. apply andb_true_iff in H. destruct H as [_ H].
    apply negb_true_iff in H. rewrite H. split; reflexivity.
  - intros H. apply andb_true_iff in H. destruct H as [_ H].
    apply negb_true_iff in H. rewrite H. split; reflexivity.
Qed.

Lemma fitting_setter_of_other_character_is_noop_witness :
  nth_error sliderTree 1%nat
    = Some (mkNode (Some 0%nat) Transform_identity Transform_identity sliderX) /\
  setQToFitRotation (finalizeTopology sliderTree) armState 1%nat quarterTurnZ
    = Ok armState.
Proof.
  split; [reflexivity|].
  apply (proj1 (proj2 (proj2
           (fitting_setter_of_other_character_is_noop
              sliderTree armState 1%nat _ quarterTurnZ (mkVec3 1 0 0) eq_refl)))).
  reflexivity.
Defined.

(* ======================================================================== *)
(** * Further properties of the operators                                    *)
(* ======================================================================== *)

Ltac run_more_operators :=
  unfold findStationAtAnotherBodyStation, findStationAtAnotherBodyOrigin,
         findStationVelocityInAnotherBody, findStationLocationInAnotherBody,
         findBodyAngularAccelerationInAnotherBody,
         findBodyOriginVelocityInAnotherBody,
         findBodyAngularVelocityInAnotherBody,
         findFrameAccelerationInGround, findFrameVelocityInGround,
         findFrameTransformInGround;
  run_operators.

Lemma cross_zero_l (a : Vec3) : (Vec3_zero >< a)%vec = Vec3_zero.
Proof. vec_crush. Qed.

Lemma vsub_zero_r (a : Vec3) : (a - Vec3_zero)%vec = a.
Proof. vec_crush. Qed.

Lemma vadd_zero_l (a : Vec3) : (Vec3_zero + a)%vec = a.
Proof. vec_crush. Qed.

Lemma transpose_identity : transpose Mat33_identity = Mat33_identity.
Proof. reflexivity. Qed.

Lemma xform_inv_cancel (X : Transform) (g : Vec3) :
  isTransform X -> xformStation X (invXformStation X g) = g.
Proof.
  intros HX. unfold xformStation, invXformStation.
  rewrite rotate_forth by exact HX. apply vadd_vsub_back.
Qed.

Lemma inv_xform_cancel (X : Transform) (st : Vec3) :
  isTransform X -> invXformStation X (xformStation X st) = st.
Proof.
  intros HX. unfold xformStation, invXformStation.
  rewrite vadd_vsub_cancel. apply rotate_back. exact HX.
Qed.

Lemma xformStation_invCompose (X Y : Transform) (st : Vec3) :
  xformStation (invCompose X Y) st = invXformStation X (xformStation Y st).
Proof.
  unfold xformStation, invCompose, invXformStation; cbn [R p].
  rewrite mvmul_mmul, <- mvmul_vadd. f_equal. vec_crush.
Qed.

Lemma xformStation_compose (X Y : Transform) (st : Vec3) :
  xformStation (compose X Y) st = xformStation X (xformStation Y st).
Proof.
  unfold xformStation, compose; cbn [R p].
  rewrite mvmul_mmul, !mvmul_vadd. vec_crush.
Qed.

Lemma getBodyTransform_Ok_inv (s : State) (B : MobilizedBody) (X : Transform) :
  getBodyTransform s B = Ok X ->
  stage_leb Position (currentStage s) = true /\ cacheX_GB s B = X.
Proof.
  unfold getBodyTransform, requireStage.
  destruct (stage_leb Position (currentStage s)); cbn [bind]; [|discriminate].
  intros H. apply Ok_inj in H. split; [reflexivity | exact H].
Qed.

Lemma getBodyVelocity_Ok_inv (s : State) (B : MobilizedBody) (V : SpatialVec) :
  getBodyVelocity s B = Ok V ->
  stage_leb Velocity (currentStage s) = true /\ cacheV_GB s B = V.
Proof.
  unfold getBodyVelocity, requireStage.
  destruct (stage_leb Velocity (currentStage s)); cbn [bind]; [|discriminate].
  intros H. apply Ok_inj in H. split; [reflexivity | exact H].
Qed.

Lemma getBodyAcceleration_Ok_inv (s : State) (B : MobilizedBody) (A : SpatialVec) :
  getBodyAcceleration s B = Ok A ->
  stage_leb Acceleration (currentStage s) = true /\ cacheA_GB s B = A.
Proof.
  unfold getBodyAcceleration, requireStage.
  destruct (stage_leb Acceleration (currentStage s)); cbn [bind]; [|discriminate].
  intros H. apply Ok_inj in H. split; [reflexivity | exact H].
Qed.

Lemma armState_realized_Position : realizedTo Position armState.
Proof. split; [reflexivity | exact armX_GB_isTransform]. Qed.

(* ------------------------------------------------------------------------ *)
(** ** The cheap operators against the full ones                             *)
(* ------------------------------------------------------------------------ *)

(** X1.  [findBodyAngularVelocityInAnotherBody] returns the angular half of
    what [findBodyVelocityInAnotherBody] returns, and raises what it raises
    when the State is not realized far enough. *)
Theorem angular_velocity_operator_is_angular_half
    (s : State) (B inBodyA : MobilizedBody) :
  findBodyAngularVelocityInAnotherBody s B inBodyA =
  (V_AB <- findBodyVelocityInAnotherBody s B inBodyA ;; Ok (angular V_AB)).
Proof.
  unfold findBodyAngularVelocityInAnotherBody, findBodyVelocityInAnotherBody,
    expressGroundVectorInBodyFrame, getBodyAngularVelocity, getBodyRotation,
    getBodyVelocity, getBodyTransform, requireStage.
  destruct (stage_leb Velocity (currentStage s)); cbn [bind]; [|reflexivity].
  destruct (stage_leb Position (currentStage s)); cbn [bind]; reflexivity.
Qed.

(** X2.  [findStationLocationInAnotherBody], computed as X_AG*(X_GB*p), is
    the relative transform of [findBodyTransformInAnotherBody] applied to
    the station: X_AB*p; both fail alike before Position is realized. *)
Theorem station_in_another_body_applies_relative_transform
    (s : State) (B : MobilizedBody) (stationOnB : Vec3) (toBodyA : MobilizedBody) :
  findStationLocationInAnotherBody s B stationOnB toBodyA =
  (X_AB <- findBodyTransformInAnotherBody s B toBodyA ;;
   Ok (xformStation X_AB stationOnB)).
Proof.
  unfold findStationLocationInAnotherBody, findStationLocationInGround,
    findStationAtGroundPoint, findBodyTransformInAnotherBody,
    getBodyTransform, requireStage.
  destruct (stage_leb Position (currentStage s)); cbn [bind]; [|reflexivity].
  rewrite xformStation_invCompose. reflexivity.
Qed.

(* ------------------------------------------------------------------------ *)
(** ** Transport between bodies                                              *)
(* ------------------------------------------------------------------------ *)

(** X3.  On a State realized to Position, carrying a station of B to body A
    with [findStationLocationInAnotherBody] and back to B with
    [findStationAtAnotherBodyStation] returns the station. *)
Theorem station_between_bodies_round_trip
    (s : State) (B A : MobilizedBody) (stationOnB : Vec3) :
  realizedTo Position s ->
  (a <- findStationLocationInAnotherBody s B stationOnB A ;;
   findStationAtAnotherBodyStation s B A a) = Ok stationOnB.
Proof.
  intros [Hp Hrot]. run_more_operators.
  rewrite xform_inv_cancel by apply Hrot.
  rewrite inv_xform_cancel by apply Hrot. reflexivity.
Qed.

Lemma station_between_bodies_round_trip_witness :
  realizedTo Position armState /\
  (a <- findStationLocationInAnotherBody armState 1%nat (mkVec3 2 3 5) 0%nat ;;
   findStationAtAnotherBodyStation armState 1%nat 0%nat a) = Ok (mkVec3 2 3 5).
Proof.
  split; [exact armState_realized_Position|].
  exact (station_between_bodies_round_trip armState 1%nat 0%nat (mkVec3 2 3 5)
           armState_realized_Position).
Defined.

(** X4.  On a State realized to Position, carrying a station from B to A and
    from there to C gives what carrying it from B to C directly gives. *)
Theorem station_transport_composes
    (s : State) (B A C : MobilizedBody) (stationOnB : Vec3) :
  realizedTo Position s ->
  (a <- findStationLocationInAnotherBody s B stationOnB A ;;
   findStationLocationInAnotherBody s A a C)
  = findStationLocationInAnotherBody s B stationOnB C.
Proof.
  intros [Hp Hrot]. run_more_operators.
  rewrite xform_inv_cancel by apply Hrot. reflexivity.
Qed.

Lemma station_transport_composes_witness :
  realizedTo Position armState /\
  (a <- findStationLocationInAnotherBody armState 1%nat (mkVec3 2 3 5) 0%nat ;;
   findStationLocationInAnotherBody armState 0%nat a 2%nat)
  = findStationLocationInAnotherBody armState 1%nat (mkVec3 2 3 5) 2%nat.
Proof.
  split; [exact armState_realized_Position|].
  exact (station_transport_composes armState 1%nat 0%nat 2%nat (mkVec3 2 3 5)
           armState_realized_Position).
Defined.

(** X5.  On a State realized to Position, relative transforms chain:
    X_AB composed with X_BC is X_AC. *)
Theorem relative_transforms_compose (s : State) (A B C : MobilizedBody) :
  realizedTo Position s ->
  (X_AB <- findBodyTransformInAnotherBody s B A ;;
   X_BC <- findBodyTransformInAnotherBody s C B ;;
   Ok (compose X_AB X_BC))
  = findBodyTransformInAnotherBody s C A.
Proof.
  intros [Hp Hrot]. run_more_operators.
  pose proof (Hrot B) as [_ HBr].
  unfold compose, invCompose; cbn [R p]. f_equal. f_equal.
  - rewrite mmul_assoc, <- (mmul_assoc (R (cacheX_GB s B))), HBr,
      mmul_identity_l. reflexivity.
  - fold (invCompose (cacheX_GB s A) (cacheX_GB s B)).
    rewrite xformStation_invCompose, xform_inv_cancel by apply Hrot.
    reflexivity.
Qed.

Lemma relative_transforms_compose_witness :
  realizedTo Position armState /\
  (X_AB <- findBodyTransformInAnotherBody armState 1%nat 0%nat ;;
   X_BC <- findBodyTransformInAnotherBody armState 2%nat 1%nat ;;
   Ok (compose X_AB X_BC))
  = findBodyTransformInAnotherBody armState 2%nat 0%nat.
Proof.
  split; [exact armState_realized_Position|].
  exact (relative_transforms_compose armState 0%nat 1%nat 2%nat
           armState_realized_Position).
Defined.

(* ------------------------------------------------------------------------ *)
(** ** Ground, or the body itself, as the reference body                     *)
(* ------------------------------------------------------------------------ *)

(** X6.  When the reference body A has the identity as its cached transform
    (as Ground has), the Position-stage operators "in another body" return
    what the Ground operators return: X_AB is X_GB, R_AB is R_GB, B's origin
    in A is p_GB, a station's location in A is its Ground location, and a
    vector re-expressed in A is the vector re-expressed in Ground. *)
Theorem identity_reference_gives_ground_position_operators
    (s : State) (B A : MobilizedBody) (v : Vec3) :
  getBodyTransform s A = Ok Transform_identity ->
  findBodyTransformInAnotherBody s B A = getBodyTransform s B /\
  findBodyRotationInAnotherBody s B A = getBodyRotation s B /\
  findBodyOriginLocationInAnotherBody s B A = getBodyOriginLocation s B /\
  findStationLocationInAnotherBody s B v A = findStationLocationInGround s B v /\
  expressVectorInAnotherBodyFrame s B v A = expressVectorInGroundFrame s B v.
Proof.
  intros HA. apply getBodyTransform_Ok_inv in HA. destruct HA as [Hp HA].
  run_more_operators. rewrite HA.
  unfold invCompose, invXformStation, Transform_identity; cbn [R p].
  rewrite transpose_identity, mmul_identity_l, !mvmul_identity, !vsub_zero_r.
  destruct (cacheX_GB s B) as [m o]; cbn [R p]. repeat split.
Qed.

Lemma identity_reference_gives_ground_position_operators_witness :
  getBodyTransform armState 0%nat = Ok Transform_identity /\
  findStationLocationInAnotherBody armState 1%nat (mkVec3 2 3 5) 0%nat
    = findStationLocationInGround armState 1%nat (mkVec3 2 3 5).
Proof.
  split; [reflexivity|].
  exact (proj1 (proj2 (proj2 (proj2
           (identity_reference_gives_ground_position_operators
              armState 1%nat 0%nat (mkVec3 2 3 5) eq_refl))))).
Defined.

(** X7.  When the reference body A is at rest with identity transform (as
    Ground is), the velocity operators "in another body" return what the
    Ground operators return: V_AB is V_GB, the relative angular velocity is
    w_GB, and a station's velocity in A is its Ground velocity; when A's
    spatial acceleration is zero as well, the relative angular acceleration
    is b_GB. *)
Theorem resting_identity_reference_gives_ground_velocity_operators
    (s : State) (B A : MobilizedBody) (stationOnB : Vec3) :
  getBodyTransform s A = Ok Transform_identity ->
  getBodyVelocity s A = Ok SpatialVec_zero ->
  findBodyVelocityInAnotherBody s B A = getBodyVelocity s B /\
  findBodyAngularVelocityInAnotherBody s B A = getBodyAngularVelocity s B /\
  findBodyOriginVelocityInAnotherBody s B A = getBodyOriginVelocity s B /\
  findStationVelocityInAnotherBody s B stationOnB A
    = findStationVelocityInGround s B stationOnB /\
  (getBodyAcceleration s A = Ok SpatialVec_zero ->
   findBodyAngularAccelerationInAnotherBody s B A
     = getBodyAngularAcceleration s B).
Proof.
  intros HA HVA.
  apply getBodyTransform_Ok_inv in HA. destruct HA as [Hp HA].
  apply getBodyVelocity_Ok_inv in HVA. destruct HVA as [Hv HVA].
  assert (Hvel :
    rotSpatial (transpose (R (cacheX_GB s A)))
      (mkSpatialVec
         (angular (cacheV_GB s B) - angular (cacheV_GB s A))%vec
         (linear (cacheV_GB s B) - linear (cacheV_GB s A)
          - angular (cacheV_GB s A)
            >< (p (cacheX_GB s B) - p (cacheX_GB s A)))%vec)
    = cacheV_GB s B).
  { rewrite HA, HVA. unfold rotSpatial, SpatialVec_zero, Transform_identity;
      cbn [R p angular linear].
    rewrite transpose_identity, !mvmul_identity, cross_zero_l, !vsub_zero_r.
    destruct (cacheV_GB s B); reflexivity. }
  repeat split.
  - run_more_operators. rewrite Hvel. reflexivity.
  - run_more_operators. rewrite HA, HVA.
    unfold SpatialVec_zero, Transform_identity; cbn [R p angular linear].
    rewrite transpose_identity, mvmul_identity, vsub_zero_r. reflexivity.
  - run_more_operators. rewrite Hvel. reflexivity.
  - run_more_operators. rewrite Hvel. rewrite HA.
    unfold Transform_identity; cbn [R]. rewrite transpose_identity, mvmul_identity.
    reflexivity.
  - intros HAA. apply getBodyAcceleration_Ok_inv in HAA.
    destruct HAA as [Ha HAA]. run_more_operators. rewrite HA, HVA, HAA.
    unfold SpatialVec_zero, Transform_identity; cbn [R p angular linear].
    rewrite transpose_identity, mvmul_identity, cross_zero_l, !vsub_zero_r.
    reflexivity.
Qed.

Lemma resting_identity_reference_gives_ground_velocity_operators_witness :
  getBodyTransform armState 0%nat = Ok Transform_identity /\
  getBodyVelocity armState 0%nat = Ok SpatialVec_zero /\
  findStationVelocityInAnotherBody armState 1%nat (mkVec3 2 3 5) 0%nat
    = findStationVelocityInGround armState 1%nat (mkVec3 2 3 5).
Proof.
  split; [reflexivity|]. split; [reflexivity|].
  exact (proj1 (proj2 (proj2 (proj2
           (resting_identity_reference_gives_ground_velocity_operators
              armState 1%nat 0%nat (mkVec3 2 3 5) eq_refl eq_refl))))).
Defined.

(** X8.  A body seen from itself: on a realized State the transform of B in
    B is the identity and a station of B is located at itself; the spatial
    velocity of B in B and the velocity in B of any station fixed on B are
    zero; the angular acceleration of B in B is zero. *)
Theorem body_in_itself (s : State) (B : MobilizedBody) (stationOnB : Vec3) :
  realizedTo Position s ->
  findBodyTransformInAnotherBody s B B = Ok Transform_identity /\
  findStationLocationInAnotherBody s B stationOnB B = Ok stationOnB /\
  (stage_leb Velocity (currentStage s) = true ->
   findBodyVelocityInAnotherBody s B B = Ok SpatialVec_zero /\
   findStationVelocityInAnotherBody s B stationOnB B = Ok Vec3_zero) /\
  (stage_leb Acceleration (currentStage s) = true ->
   findBodyAngularAccelerationInAnotherBody s B B = Ok Vec3_zero).
Proof.
  intros [Hp Hrot]. pose proof (Hrot B) as HB. split; [|split; [|split]].
  - run_more_operators. unfold invCompose, invXformStation, Transform_identity.
    destruct HB as [Hl _]. rewrite Hl, vsub_diag, mvmul_zero. reflexivity.
  - run_more_operators. rewrite inv_xform_cancel by exact HB. reflexivity.
  - intros Hv.
    assert (HV : findBodyVelocityInAnotherBody s B B = Ok SpatialVec_zero).
    { run_more_operators. unfold rotSpatial; cbn [angular linear].
      rewrite !vsub_diag, cross_zero_r, vsub_diag, mvmul_zero. reflexivity. }
    split; [exact HV|].
    unfold findStationVelocityInAnotherBody. rewrite HV. run_more_operators.
    unfold SpatialVec_zero; cbn [angular linear].
    rewrite cross_zero_l, vadd_zero_r. reflexivity.
  - intros Ha. pose proof (acceleration_stage_velocity s Ha) as Hv.
    run_more_operators.
    rewrite !vsub_diag, cross_zero_r, vsub_diag, mvmul_zero. reflexivity.
Qed.

Lemma body_in_itself_witness :
  realizedTo Position armState /\
  findBodyTransformInAnotherBody armState 1%nat 1%nat = Ok Transform_identity.
Proof.
  split; [exact armState_realized_Position|].
  exact (proj1 (body_in_itself armState 1%nat Vec3_zero armState_realized_Position)).
Defined.

(* ------------------------------------------------------------------------ *)
(** ** Relative angular acceleration from either body                        *)
(* ------------------------------------------------------------------------ *)

Lemma findBodyAngularAccelerationInAnotherBody_ok
    (s : State) (B inBodyA : MobilizedBody) :
  stage_leb Acceleration (currentStage s) = true ->
  findBodyAngularAccelerationInAnotherBody s B inBodyA =
  Ok (mvmul (transpose (R (cacheX_GB s inBodyA)))
        (angular (cacheA_GB s B) - angular (cacheA_GB s inBodyA)
         - angular (cacheV_GB s inBodyA)
           >< (angular (cacheV_GB s B) - angular (cacheV_GB s inBodyA)))%vec).
Proof.
  intros Ha. pose proof (acceleration_stage_velocity s Ha) as Hv.
  pose proof (velocity_stage_position s Hv) as Hp.
  run_more_operators. reflexivity.
Qed.

Lemma mirrored_angular_acceleration (bA bB wA wB : Vec3) :
  (bB - bA - wA >< (wB - wA))%vec = (- (bA - bB - wB >< (wA - wB)))%vec.
Proof. vec_crush. Qed.

(** X9.  On a State realized to Acceleration, the angular acceleration of B
    in A is the negated angular acceleration of A in B re-expressed from B
    into A (the relative angular velocity obeys the same rule). *)
Theorem angular_acceleration_is_antisymmetric (s : State) (A B : MobilizedBody) :
  realizedTo Acceleration s ->
  exists b_AB b_BA w_AB w_BA R_AB,
    findBodyAngularAccelerationInAnotherBody s B A = Ok b_AB /\
    findBodyAngularAccelerationInAnotherBody s A B = Ok b_BA /\
    findBodyAngularVelocityInAnotherBody s B A = Ok w_AB /\
    findBodyAngularVelocityInAnotherBody s A B = Ok w_BA /\
    findBodyRotationInAnotherBody s B A = Ok R_AB /\
    b_AB = mvmul R_AB (- b_BA)%vec /\
    w_AB = mvmul R_AB (- w_BA)%vec.
Proof.
  intros [Ha Hrot]. pose proof (acceleration_stage_velocity s Ha) as Hv.
  pose proof (velocity_stage_position s Hv) as Hp.
  pose proof (Hrot B) as HB.
  rewrite !findBodyAngularAccelerationInAnotherBody_ok by exact Ha.
  rewrite findBodyRotationInAnotherBody_ok by exact Hp.
  eexists _, _, _, _, _.
  split; [reflexivity|]. split; [reflexivity|].
  split; [run_more_operators; reflexivity|].
  split; [run_more_operators; reflexivity|].
  split; [reflexivity|]. split.
  - rewrite mvmul_mmul, <- mvmul_vneg, rotate_forth by exact HB.
    rewrite mirrored_angular_acceleration. reflexivity.
  - rewrite mvmul_mmul, <- mvmul_vneg, rotate_forth by exact HB.
    rewrite vneg_vsub. reflexivity.
Qed.

Lemma angular_acceleration_is_antisymmetric_witness :
  realizedTo Acceleration armState /\
  exists b_AB b_BA R_AB,
    findBodyAngularAccelerationInAnotherBody armState 1%nat 0%nat = Ok b_AB /\
    findBodyAngularAccelerationInAnotherBody armState 0%nat 1%nat = Ok b_BA /\
    findBodyRotationInAnotherBody armState 1%nat 0%nat = Ok R_AB /\
    b_AB = mvmul R_AB (- b_BA)%vec.
Proof.
  split; [exact armState_realized|].
  destruct (angular_acceleration_is_antisymmetric armState 0%nat 1%nat
              armState_realized)
    as (b_AB & b_BA & w_AB & w_BA & R_AB & H1 & H2 & _ & _ & H3 & H4 & _).
  exists b_AB, b_BA, R_AB. repeat split; assumption.
Defined.

(* ------------------------------------------------------------------------ *)
(** ** Station-to-station distance and its rates                             *)
(* ------------------------------------------------------------------------ *)

Lemma norm_vsub_comm (a b : Vec3) : norm (a - b)%vec = norm (b - a)%vec.
Proof. unfold norm. f_equal. vec_crush. unfold Real. ring. Qed.




Lemma dot_mvmul (m : Mat33) (a b : Vec3) :
  dot (mvmul m a) b = dot a (mvmul (transpose m) b).
Proof. vec_crush. unfold Real. ring. Qed.

(** A rotation keeps lengths. *)
Lemma norm_rotate (m : Mat33) (v : Vec3) :
  isRotation m -> norm (mvmul m v) = norm v.
Proof.
  intros Hm. unfold norm. f_equal.
  rewrite dot_mvmul, rotate_back by exact Hm. reflexivity.
Qed.

Lemma isSameMobilizedBody_sym (B A : MobilizedBody) :
  isSameMobilizedBody B A = isSameMobilizedBody A B.
Proof. unfold isSameMobilizedBody. apply Nat.eqb_sym. Qed.

Lemma findStationLocationInGround_fail (s : State) (B : MobilizedBody) (st : Vec3) :
  stage_leb Position (currentStage s) = false ->
  findStationLocationInGround s B st = Throw StageViolation.
Proof.
  intros H. unfold findStationLocationInGround, getBodyTransform.
  rewrite requireStage_fail by exact H. reflexivity.
Qed.

Lemma findStationLocationAndVelocityInGround_fail
    (s : State) (B : MobilizedBody) (st : Vec3) :
  stage_leb Velocity (currentStage s) = false ->
  findStationLocationAndVelocityInGround s B st = Throw StageViolation.
Proof.
  intros H.
  unfold findStationLocationAndVelocityInGround, expressVectorInGroundFrame,
    getBodyOriginLocation, getBodyRotation, getBodyAngularVelocity,
    getBodyOriginVelocity, getBodyTransform, getBodyVelocity, requireStage.
  rewrite H. destruct (stage_leb Position (currentStage s)); reflexivity.
Qed.

Lemma findStationLocationVelocityAndAccelerationInGround_fail
    (s : State) (B : MobilizedBody) (st : Vec3) :
  stage_leb Acceleration (currentStage s) = false ->
  findStationLocationVelocityAndAccelerationInGround s B st = Throw StageViolation.
Proof.
  intros H.
  unfold findStationLocationVelocityAndAccelerationInGround,
    getBodyOriginLocation, getBodyRotation, getBodyAngularVelocity,
    getBodyOriginVelocity, getBodyAngularAcceleration,
    getBodyOriginAcceleration, getBodyTransform, getBodyVelocity,
    getBodyAcceleration, requireStage.
  rewrite H. destruct (stage_leb Position (currentStage s));
    destruct (stage_leb Velocity (currentStage s)); reflexivity.
Qed.

(** X10.  [calcStationToStationDistance] does not depend on which of the
    two bodies it is called on: exchanging (B, PB) with (A, PA) gives the
    same result, on every State. *)
Theorem station_distance_is_symmetric
    (s : State) (B : MobilizedBody) (locationOnBodyB : Vec3)
    (bodyA : MobilizedBody) (locationOnBodyA : Vec3) :
  calcStationToStationDistance s B locationOnBodyB bodyA locationOnBodyA =
  calcStationToStationDistance s bodyA locationOnBodyA B locationOnBodyB.
Proof.
  unfold calcStationToStationDistance.
  rewrite (isSameMobilizedBody_sym bodyA B).
  destruct (isSameMobilizedBody B bodyA).
  - rewrite norm_vsub_comm. reflexivity.
  - destruct (stage_leb Position (currentStage s)) eqn:Hp.
    + rewrite !findStationLocationInGround_ok by exact Hp. cbn [bind].
      rewrite norm_vsub_comm. reflexivity.
    + rewrite !findStationLocationInGround_fail by exact Hp. reflexivity.
Qed.

(** X12.  On a State realized to Position the distance is the same whether
    measured in Ground, as the operator does, or in body A's frame between
    PA and the location in A of PB ([findStationLocationInAnotherBody]). *)
Theorem station_distance_in_reference_body
    (s : State) (B : MobilizedBody) (locationOnBodyB : Vec3)
    (bodyA : MobilizedBody) (locationOnBodyA : Vec3) :
  realizedTo Position s ->
  calcStationToStationDistance s B locationOnBodyB bodyA locationOnBodyA =
  (q <- findStationLocationInAnotherBody s B locationOnBodyB bodyA ;;
   Ok (norm (locationOnBodyA - q)%vec)).
Proof.
  intros [Hp Hrot]. unfold calcStationToStationDistance.
  destruct (isSameMobilizedBody B bodyA) eqn:Hsame.
  - unfold isSameMobilizedBody in Hsame. apply Nat.eqb_eq in Hsame. subst bodyA.
    run_more_operators. rewrite inv_xform_cancel by apply Hrot. reflexivity.
  - run_more_operators. f_equal.
    set (XA := cacheX_GB s bodyA). set (XB := cacheX_GB s B).
    rewrite <- (inv_xform_cancel XA locationOnBodyA) at 2 by apply Hrot.
    unfold invXformStation. rewrite <- mvmul_vsub.
    rewrite norm_rotate by (apply isRotation_transpose, Hrot).
    f_equal. vec_crush.
Qed.

Lemma station_distance_in_reference_body_witness :
  realizedTo Position armState /\
  calcStationToStationDistance armState 1%nat (mkVec3 2 3 5) 0%nat (mkVec3 1 0 0) =
  (q <- findStationLocationInAnotherBody armState 1%nat (mkVec3 2 3 5) 0%nat ;;
   Ok (norm (mkVec3 1 0 0 - q)%vec)).
Proof.
  split; [exact armState_realized_Position|].
  exact (station_distance_in_reference_body
           armState 1%nat (mkVec3 2 3 5) 0%nat (mkVec3 1 0 0)
           armState_realized_Position).
Defined.

Lemma dot_vdiv_swap (v1 v2 r1 r2 : Vec3) (d : Real) :
  d <> 0 ->
  dot (v1 - v2)%vec (vdiv (r1 - r2)%vec d) =
  dot (v2 - v1)%vec (vdiv (r2 - r1)%vec d).
Proof.
  intros Hd. destruct v1, v2, r1, r2.
  unfold dot, vdiv, vsub; cbn [vx vy vz]. unfold Real in *. field. exact Hd.
Qed.

Lemma separated_second_rate_swap (a1 a2 v1 v2 r1 r2 : Vec3) (d : Real) :
  d <> 0 ->
  dot (a1 - a2)%vec (vdiv (r1 - r2)%vec d)
  + dot ((v1 - v2)
         - vscale (dot (v1 - v2)%vec (vdiv (r1 - r2)%vec d))
                  (vdiv (r1 - r2)%vec d))%vec
        (v1 - v2)%vec / d
  =
  dot (a2 - a1)%vec (vdiv (r2 - r1)%vec d)
  + dot ((v2 - v1)
         - vscale (dot (v2 - v1)%vec (vdiv (r2 - r1)%vec d))
                  (vdiv (r2 - r1)%vec d))%vec
        (v2 - v1)%vec / d.
Proof.
  intros Hd. destruct a1, a2, v1, v2, r1, r2.
  unfold dot, vdiv, vsub, vscale; cbn [vx vy vz]. unfold Real in *.
  field. exact Hd.
Qed.

(** X13.  [calcStationToStationDistanceTimeDerivative] does not depend on
    which of the two bodies it is called on: exchanging (B, PB) with (A, PA)
    gives the same rate, on every State. *)
Theorem station_distance_rate_is_symmetric
    (s : State) (B : MobilizedBody) (locationOnBodyB : Vec3)
    (bodyA : MobilizedBody) (locationOnBodyA : Vec3) :
  calcStationToStationDistanceTimeDerivative
    s B locationOnBodyB bodyA locationOnBodyA =
  calcStationToStationDistanceTimeDerivative
    s bodyA locationOnBodyA B locationOnBodyB.
Proof.
  unfold calcStationToStationDistanceTimeDerivative.
  rewrite (isSameMobilizedBody_sym bodyA B).
  destruct (isSameMobilizedBody B bodyA); [reflexivity|].
  destruct (stage_leb Velocity (currentStage s)) eqn:Hv.
  - rewrite !findStationLocationAndVelocityInGround_ok by exact Hv.
    cbn [bind]. cbv zeta.
    rewrite (norm_vsub_comm (xformStation (cacheX_GB s B) locationOnBodyB)).
    destruct (Req_dec_T _ 0) as [Hz|Hnz].
    + rewrite norm_vsub_comm. reflexivity.
    + f_equal. apply dot_vdiv_swap. exact Hnz.
  - rewrite !findStationLocationAndVelocityInGround_fail by exact Hv.
    reflexivity.
Qed.

(** X14.  [calcStationToStationDistance2ndTimeDerivative] does not depend
    on which of the two bodies it is called on, on every State and in each
    of its three cases. *)
Theorem station_distance_second_rate_is_symmetric
    (s : State) (B : MobilizedBody) (locationOnBodyB : Vec3)
    (bodyA : MobilizedBody) (locationOnBodyA : Vec3) :
  calcStationToStationDistance2ndTimeDerivative
    s B locationOnBodyB bodyA locationOnBodyA =
  calcStationToStationDistance2ndTimeDerivative
    s bodyA locationOnBodyA B locationOnBodyB.
Proof.
  unfold calcStationToStationDistance2ndTimeDerivative.
  rewrite (isSameMobilizedBody_sym bodyA B).
  destruct (isSameMobilizedBody B bodyA); [reflexivity|].
  destruct (stage_leb Acceleration (currentStage s)) eqn:Ha.
  - rewrite !findStationLocationVelocityAndAccelerationInGround_ok by exact Ha.
    cbn [bind]. cbv zeta.
    rewrite (norm_vsub_comm (xformStation (cacheX_GB s B) locationOnBodyB)).
    destruct (Req_dec_T _ 0) as [Hz|Hnz].
    + match goal with
      | |- context [Req_dec_T (norm (?x - ?y)%vec) 0] =>
          rewrite (norm_vsub_comm x y)
      end.
      destruct (Req_dec_T _ 0) as [Hsz|Hsnz].
      * rewrite norm_vsub_comm. reflexivity.
      * f_equal. apply dot_vdiv_swap. exact Hsnz.
    + f_equal. apply separated_second_rate_swap. exact Hnz.
  - rewrite !findStationLocationVelocityAndAccelerationInGround_fail by exact Ha.
    reflexivity.
Qed.








(* ------------------------------------------------------------------------ *)
(** ** Re-expressing vectors                                                 *)
(* ------------------------------------------------------------------------ *)

(** X16.  On a State realized to Position, re-expressing a vector of B in
    Ground and back, or in another body A and back, returns the vector, and
    the vector re-expressed in A has the length it had in B. *)
Theorem vector_reexpression_round_trip
    (s : State) (B A : MobilizedBody) (vectorInB : Vec3) :
  realizedTo Position s ->
  (g <- expressVectorInGroundFrame s B vectorInB ;;
   expressGroundVectorInBodyFrame s B g) = Ok vectorInB /\
  (a <- expressVectorInAnotherBodyFrame s B vectorInB A ;;
   expressVectorInAnotherBodyFrame s A a B) = Ok vectorInB /\
  exists a,
    expressVectorInAnotherBodyFrame s B vectorInB A = Ok a /\
    norm a = norm vectorInB.
Proof.
  intros [Hp Hrot]. pose proof (Hrot A) as HA. pose proof (Hrot B) as HB.
  split; [|split].
  - run_more_operators. rewrite rotate_back by exact HB. reflexivity.
  - run_more_operators. rewrite rotate_forth by exact HA.
    rewrite rotate_back by exact HB. reflexivity.
  - run_more_operators. eexists. split; [reflexivity|].
    rewrite norm_rotate by (apply isRotation_transpose; exact HA).
    apply norm_rotate. exact HB.
Qed.

Lemma vector_reexpression_round_trip_witness :
  realizedTo Position armState /\
  (a <- expressVectorInAnotherBodyFrame armState 1%nat (mkVec3 2 3 5) 0%nat ;;
   expressVectorInAnotherBodyFrame armState 0%nat a 1%nat) = Ok (mkVec3 2 3 5).
Proof.
  split; [exact armState_realized_Position|].
  exact (proj1 (proj2 (vector_reexpression_round_trip
                         armState 1%nat 0%nat (mkVec3 2 3 5)
                         armState_realized_Position))).
Defined.

(* ------------------------------------------------------------------------ *)
(** ** Frames fixed to a body                                                *)
(* ------------------------------------------------------------------------ *)

(** X17.  On a State realized to Position, [findFrameTransformInGround]
    returns a transform X_GF that locates the points of the frame F where
    [findStationLocationInGround] locates them as stations of B: X_GF * q is
    the Ground location of the station X_BF * q; and X_GF is orthonormal
    when X_BF is. *)
Theorem frame_transform_locates_frame_points
    (s : State) (B : MobilizedBody) (frameOnB : Transform) (q : Vec3) :
  realizedTo Position s ->
  exists X_GF,
    findFrameTransformInGround s B frameOnB = Ok X_GF /\
    findStationLocationInGround s B (xformStation frameOnB q)
      = Ok (xformStation X_GF q) /\
    findStationLocationInGround s B (p frameOnB) = Ok (p X_GF) /\
    (isTransform frameOnB -> isTransform X_GF).
Proof.
  intros [Hp Hrot]. run_more_operators. eexists. split; [reflexivity|].
  split; [rewrite xformStation_compose; reflexivity|].
  split; [reflexivity|].
  intros HF. unfold isTransform, compose; cbn [R].
  apply isRotation_mmul; [apply Hrot | exact HF].
Qed.

Lemma frame_transform_locates_frame_points_witness :
  realizedTo Position armState /\
  exists X_GF,
    findFrameTransformInGround armState 1%nat
      (mkTransform quarterTurnZ (mkVec3 0 1 0)) = Ok X_GF /\
    findStationLocationInGround armState 1%nat
      (xformStation (mkTransform quarterTurnZ (mkVec3 0 1 0)) (mkVec3 2 3 5))
      = Ok (xformStation X_GF (mkVec3 2 3 5)).
Proof.
  split; [exact armState_realized_Position|].
  destruct (frame_transform_locates_frame_points armState 1%nat
              (mkTransform quarterTurnZ (mkVec3 0 1 0)) (mkVec3 2 3 5)
              armState_realized_Position)
    as (X_GF & H1 & H2 & _).
  exists X_GF. split; assumption.
Defined.

(** X18.  A frame fixed to B whose origin is B's origin moves as B does:
    [findFrameVelocityInGround] returns V_GB and
    [findFrameAccelerationInGround] returns A_GB, whatever the frame's
    orientation, and with the same exception when the State is not realized
    far enough for the body's own response. *)
Theorem frame_at_body_origin_moves_with_body
    (s : State) (B : MobilizedBody) (frameOnB : Transform) :
  p frameOnB = Vec3_zero ->
  stage_leb Position (currentStage s) = true ->
  findFrameVelocityInGround s B frameOnB = getBodyVelocity s B /\
  findFrameAccelerationInGround s B frameOnB = getBodyAcceleration s B.
Proof.
  intros Horigin Hp. split.
  - unfold findFrameVelocityInGround, findStationVelocityInGround,
      expressVectorInGroundFrame, getBodyRotation,
      getBodyAngularVelocity, getBodyOriginVelocity.
    rewrite !getBodyTransform_ok by exact Hp.
    unfold getBodyVelocity, requireStage.
    destruct (stage_leb Velocity (currentStage s)); cbn [bind]; [|reflexivity].
    rewrite Horigin, mvmul_zero, cross_zero_r, vadd_zero_r.
    destruct (cacheV_GB s B); reflexivity.
  - unfold findFrameAccelerationInGround, findStationAccelerationInGround,
      expressVectorInGroundFrame, getBodyRotation,
      getBodyAngularVelocity, getBodyAngularAcceleration,
      getBodyOriginAcceleration.
    rewrite !getBodyTransform_ok by exact Hp.
    destruct (stage_leb Acceleration (currentStage s)) eqn:Ha.
    + rewrite !getBodyAcceleration_ok by exact Ha.
      rewrite !getBodyVelocity_ok by (apply acceleration_stage_velocity, Ha).
      cbn [bind].
      rewrite Horigin, mvmul_zero, !cross_zero_r, !vadd_zero_r.
      destruct (cacheA_GB s B); reflexivity.
    + unfold getBodyAcceleration. rewrite requireStage_fail by exact Ha.
      reflexivity.
Qed.

Lemma frame_at_body_origin_moves_with_body_witness :
  p (mkTransform quarterTurnZ Vec3_zero) = Vec3_zero /\
  stage_leb Position (currentStage armState) = true /\
  findFrameVelocityInGround armState 1%nat (mkTransform quarterTurnZ Vec3_zero)
    = getBodyVelocity armState 1%nat.
Proof.
  split; [reflexivity|]. split; [reflexivity|].
  exact (proj1 (frame_at_body_origin_moves_with_body
                  armState 1%nat (mkTransform quarterTurnZ Vec3_zero)
                  eq_refl eq_refl)).
Defined.

(* ------------------------------------------------------------------------ *)
(** ** Mass centers seen from another body                                   *)
(* ------------------------------------------------------------------------ *)

Lemma getBodyMassCenterStation_ok
    (mc : State -> MobilizedBodyIndex -> Vec3) (s : State) (B : MobilizedBody) :
  stage_leb Position (currentStage s) = true ->
  getBodyMassCenterStation mc s B = Ok (mc s B).
Proof.
  intros Hp. unfold getBodyMassCenterStation.
  rewrite requireStage_ok; [reflexivity|].
  eapply stage_leb_trans; [|exact Hp]. reflexivity.
Qed.

(** X19.  On a State realized to Position,
    [findStationAtAnotherBodyMassCenter] called on B for body A takes the
    mass-center station of B itself and reads it as a station of A; its
    result is the location in B of A's mass center
    ([findMassCenterLocationInAnotherBody] of A in B) exactly when the two
    bodies' mass-center stations have the same coordinates. *)
Theorem station_at_another_body_mass_center_reads_own_station
    (massCenterStation : State -> MobilizedBodyIndex -> Vec3)
    (s : State) (B fromBodyA : MobilizedBody) :
  realizedTo Position s ->
  findStationAtAnotherBodyMassCenter massCenterStation s B fromBodyA =
    findStationAtAnotherBodyStation s B fromBodyA (massCenterStation s B) /\
  (findStationAtAnotherBodyMassCenter massCenterStation s B fromBodyA =
   findMassCenterLocationInAnotherBody massCenterStation s fromBodyA B
   <-> massCenterStation s B = massCenterStation s fromBodyA).
Proof.
  intros [Hp Hrot].
  unfold findStationAtAnotherBodyMassCenter, findMassCenterLocationInAnotherBody.
  rewrite !getBodyMassCenterStation_ok by exact Hp. cbn [bind].
  split; [reflexivity|]. run_more_operators. split.
  - intros H. apply Ok_inj in H.
    apply (f_equal (xformStation (cacheX_GB s B))) in H.
    rewrite !xform_inv_cancel in H by apply Hrot.
    apply (f_equal (invXformStation (cacheX_GB s fromBodyA))) in H.
    rewrite !inv_xform_cancel in H by apply Hrot. exact H.
  - intros H. rewrite H. reflexivity.
Qed.

Lemma station_at_another_body_mass_center_reads_own_station_witness :
  realizedTo Position armState /\
  findStationAtAnotherBodyMassCenter
    (fun _ B => match B with 1%nat => mkVec3 2 3 5 | _ => Vec3_zero end)
    armState 1%nat 0%nat =
  findStationAtAnotherBodyStation armState 1%nat 0%nat (mkVec3 2 3 5).
Proof.
  split; [exact armState_realized_Position|].
  exact (proj1 (station_at_another_body_mass_center_reads_own_station
                  (fun _ B => match B with 1%nat => mkVec3 2 3 5 | _ => Vec3_zero end)
                  armState 1%nat 0%nat armState_realized_Position)).
Defined.

(* ------------------------------------------------------------------------ *)
(** ** The body origin as a station                                          *)
(* ------------------------------------------------------------------------ *)

Lemma xformStation_zero (X : Transform) : xformStation X Vec3_zero = p X.
Proof. unfold xformStation. rewrite mvmul_zero. apply vadd_zero_r. Qed.

(** X20.  The station operators at the station (0,0,0) return what the
    origin responses and origin operators return, on every State: location,
    velocity and acceleration in Ground, and location and velocity in
    another body. *)
Theorem origin_station_agrees_with_origin_operators
    (s : State) (B A : MobilizedBody) :
  findStationLocationInGround s B Vec3_zero = getBodyOriginLocation s B /\
  findStationVelocityInGround s B Vec3_zero = getBodyOriginVelocity s B /\
  findStationAccelerationInGround s B Vec3_zero = getBodyOriginAcceleration s B /\
  findStationLocationInAnotherBody s B Vec3_zero A
    = findBodyOriginLocationInAnotherBody s B A /\
  findStationVelocityInAnotherBody s B Vec3_zero A
    = findBodyOriginVelocityInAnotherBody s B A /\
  findStationAtAnotherBodyStation s B A Vec3_zero
    = findStationAtAnotherBodyOrigin s B A.
Proof.
  destruct (stage_leb Position (currentStage s)) eqn:Hp.
  - assert (HlocB : findStationLocationInGround s B Vec3_zero
                    = getBodyOriginLocation s B).
    { run_more_operators. rewrite xformStation_zero. reflexivity. }
    assert (HlocA : findStationLocationInGround s A Vec3_zero
                    = getBodyOriginLocation s A).
    { run_more_operators. rewrite xformStation_zero. reflexivity. }
    split; [exact HlocB|].
    split; [|split; [|split; [|split]]].
    + destruct (stage_leb Velocity (currentStage s)) eqn:Hv.
      * run_more_operators. rewrite mvmul_zero, cross_zero_r, vadd_zero_r.
        reflexivity.
      * unfold findStationVelocityInGround, getBodyAngularVelocity,
          getBodyOriginVelocity, getBodyVelocity.
        rewrite requireStage_fail by exact Hv. reflexivity.
    + destruct (stage_leb Acceleration (currentStage s)) eqn:Ha.
      * pose proof (acceleration_stage_velocity s Ha) as Hv.
        run_more_operators.
        rewrite mvmul_zero, !cross_zero_r, !vadd_zero_r. reflexivity.
      * unfold findStationAccelerationInGround, getBodyAngularVelocity,
          getBodyAngularAcceleration, getBodyOriginAcceleration,
          getBodyVelocity, getBodyAcceleration, requireStage.
        rewrite Ha. destruct (stage_leb Velocity (currentStage s)); reflexivity.
    + unfold findStationLocationInAnotherBody, findBodyOriginLocationInAnotherBody.
      rewrite HlocB. reflexivity.
    + destruct (stage_leb Velocity (currentStage s)) eqn:Hv.
      * run_more_operators. unfold rotSpatial; cbn [angular linear].
        rewrite !mvmul_zero, cross_zero_r, vadd_zero_r. reflexivity.
      * unfold findStationVelocityInAnotherBody,
          findBodyOriginVelocityInAnotherBody, findBodyVelocityInAnotherBody,
          getBodyVelocity.
        rewrite requireStage_fail by exact Hv. reflexivity.
    + unfold findStationAtAnotherBodyStation, findStationLocationInAnotherBody,
        findStationAtAnotherBodyOrigin.
      rewrite HlocA. reflexivity.
  - unfold findStationAtAnotherBodyStation, findStationAtAnotherBodyOrigin,
      findStationVelocityInAnotherBody, findStationLocationInAnotherBody,
      findBodyOriginVelocityInAnotherBody, findBodyOriginLocationInAnotherBody,
      findBodyVelocityInAnotherBody,
      findStationAccelerationInGround, findStationVelocityInGround,
      findStationLocationInGround, findStationAtGroundPoint,
      expressVectorInGroundFrame,
      getBodyOriginAcceleration, getBodyAngularAcceleration,
      getBodyOriginVelocity, getBodyAngularVelocity,
      getBodyOriginLocation, getBodyRotation,
      getBodyTransform, getBodyVelocity, getBodyAcceleration, requireStage.
    assert (Hv : stage_leb Velocity (currentStage s) = false).
    { destruct (stage_leb Velocity (currentStage s)) eqn:Hv; [|reflexivity].
      rewrite (velocity_stage_position s Hv) in Hp. discriminate. }
    assert (Ha : stage_leb Acceleration (currentStage s) = false).
    { destruct (stage_leb Acceleration (currentStage s)) eqn:Ha; [|reflexivity].
      rewrite (acceleration_stage_velocity s Ha) in Hv. discriminate. }
    rewrite Hp, Hv, Ha. cbn [bind]. repeat split.
Qed.

(* ------------------------------------------------------------------------ *)
(** ** When the distance operators are available                             *)
(* ------------------------------------------------------------------------ *)

(** X21.  Called with the body itself as the other body, the three distance
    operators return without reading the State -- the distance between the
    two stations in the body frame, and zero for both rates -- even on a
    State in which no stage is valid.  Called with a different body they
    succeed exactly when Position, Velocity and Acceleration respectively
    are valid. *)
Theorem distance_operators_availability
    (s : State) (B : MobilizedBody) (locationOnBodyB : Vec3)
    (bodyA : MobilizedBody) (locationOnBodyA : Vec3) :
  calcStationToStationDistance s B locationOnBodyB B locationOnBodyA
    = Ok (norm (locationOnBodyA - locationOnBodyB)%vec) /\
  calcStationToStationDistanceTimeDerivative s B locationOnBodyB B locationOnBodyA
    = Ok 0 /\
  calcStationToStationDistance2ndTimeDerivative s B locationOnBodyB B locationOnBodyA
    = Ok 0 /\
  (B <> bodyA ->
   (succeeds (calcStationToStationDistance
                s B locationOnBodyB bodyA locationOnBodyA)
    <-> stage_leb Position (currentStage s) = true) /\
   (succeeds (calcStationToStationDistanceTimeDerivative
                s B locationOnBodyB bodyA locationOnBodyA)
    <-> stage_leb Velocity (currentStage s) = true) /\
   (succeeds (calcStationToStationDistance2ndTimeDerivative
                s B locationOnBodyB bodyA locationOnBodyA)
    <-> stage_leb Acceleration (currentStage s) = true)).
Proof.
  unfold calcStationToStationDistance, calcStationToStationDistanceTimeDerivative,
    calcStationToStationDistance2ndTimeDerivative.
  assert (Hself : isSameMobilizedBody B B = true)
    by (unfold isSameMobilizedBody; apply Nat.eqb_refl).
  rewrite Hself. do 3 (split; [reflexivity|]).
  intros Hd. rewrite (isSameMobilizedBody_distinct _ _ Hd).
  split; [|split].
  - destruct (stage_leb Position (currentStage s)) eqn:Hp.
    + rewrite !findStationLocationInGround_ok by exact Hp. cbn [bind].
      split; [reflexivity | intros _; apply succeeds_Ok].
    + rewrite !findStationLocationInGround_fail by exact Hp. cbn [bind].
      split; [intros H; destruct (not_succeeds_Throw _ H) | discriminate].
  - destruct (stage_leb Velocity (currentStage s)) eqn:Hv.
    + rewrite !findStationLocationAndVelocityInGround_ok by exact Hv.
      cbn [bind]. cbv zeta.
      split; [reflexivity|]. intros _.
      destruct (Req_dec_T _ 0); apply succeeds_Ok.
    + rewrite !findStationLocationAndVelocityInGround_fail by exact Hv.
      cbn [bind].
      split; [intros H; destruct (not_succeeds_Throw _ H) | discriminate].
  - destruct (stage_leb Acceleration (currentStage s)) eqn:Ha.
    + rewrite !findStationLocationVelocityAndAccelerationInGround_ok by exact Ha.
      cbn [bind]. cbv zeta.
      split; [reflexivity|]. intros _.
      destruct (Req_dec_T _ 0); [destruct (Req_dec_T _ 0)|]; apply succeeds_Ok.
    + rewrite !findStationLocationVelocityAndAccelerationInGround_fail
        by exact Ha.
      cbn [bind].
      split; [intros H; destruct (not_succeeds_Throw _ H) | discriminate].
Qed.

(* ------------------------------------------------------------------------ *)
(** ** The stage at which each basic operator becomes available              *)
(* ------------------------------------------------------------------------ *)

Ltac unfold_to_requireStage :=
  unfold findStationAtAnotherBodyStation, findStationAtAnotherBodyOrigin,
         findStationVelocityInAnotherBody, findStationLocationInAnotherBody,
         findBodyAngularAccelerationInAnotherBody,
         findBodyOriginVelocityInAnotherBody,
         findBodyAngularVelocityInAnotherBody,
         findFrameAccelerationInGround, findFrameVelocityInGround,
         findFrameTransformInGround,
         findStationLocationVelocityAndAccelerationInGround,
         findStationLocationAndVelocityInGround,
         findStationAccelerationInGround, findStationVelocityInGround,
         findBodyVelocityInAnotherBody, findBodyOriginLocationInAnotherBody,
         findStationAtGroundPoint, findStationLocationInGround,
         findBodyRotationInAnotherBody, findBodyTransformInAnotherBody,
         expressVectorInAnotherBodyFrame, expressGroundVectorInBodyFrame,
         expressVectorInGroundFrame,
         getBodyOriginAcceleration, getBodyAngularAcceleration,
         getBodyOriginVelocity, getBodyAngularVelocity,
         getBodyOriginLocation, getBodyRotation,
         getBodyTransform, getBodyVelocity, getBodyAcceleration, requireStage.

(** An operator that needs stage [g] succeeds exactly when [g] is valid. *)
Ltac needs_stage :=
  match goal with
  | |- succeeds _ <-> stage_leb ?g (currentStage ?s) = true =>
      let E := fresh "E" in
      destruct (stage_leb g (currentStage s)) eqn:E;
      [ split; [reflexivity|]; intros _;
        try (pose proof (acceleration_stage_velocity s E));
        try (match goal with
             | Hv : stage_leb Velocity (currentStage s) = true |- _ =>
                 pose proof (velocity_stage_position s Hv)
             end);
        run_more_operators; apply succeeds_Ok
      | split; [|discriminate]; intros Hs; exfalso; revert Hs;
        unfold_to_requireStage; rewrite E;
        repeat match goal with
               | |- context [stage_leb ?h ?c] => destruct (stage_leb h c)
               end;
        cbn [bind]; apply not_succeeds_Throw ]
  end.

(** X22.  Each basic operator succeeds exactly from the stage its
    documentation names, and fails below it: the transform, rotation,
    location, re-expression and frame-transform operators from Position; the
    velocity operators, the fused location-and-velocity operator included,
    from Velocity; the acceleration operators from Acceleration. *)
Theorem basic_operators_availability
    (s : State) (B A : MobilizedBody) (v : Vec3) (frameOnB : Transform) :
  ((succeeds (findBodyTransformInAnotherBody s B A)
      <-> stage_leb Position (currentStage s) = true) /\
   (succeeds (findBodyRotationInAnotherBody s B A)
      <-> stage_leb Position (currentStage s) = true) /\
   (succeeds (findBodyOriginLocationInAnotherBody s B A)
      <-> stage_leb Position (currentStage s) = true) /\
   (succeeds (findStationLocationInGround s B v)
      <-> stage_leb Position (currentStage s) = true) /\
   (succeeds (findStationLocationInAnotherBody s B v A)
      <-> stage_leb Position (currentStage s) = true) /\
   (succeeds (findStationAtGroundPoint s B v)
      <-> stage_leb Position (currentStage s) = true) /\
   (succeeds (findStationAtAnotherBodyStation s B A v)
      <-> stage_leb Position (currentStage s) = true) /\
   (succeeds (findStationAtAnotherBodyOrigin s B A)
      <-> stage_leb Position (currentStage s) = true) /\
   (succeeds (expressVectorInGroundFrame s B v)
      <-> stage_leb Position (currentStage s) = true) /\
   (succeeds (expressGroundVectorInBodyFrame s B v)
      <-> stage_leb Position (currentStage s) = true) /\
   (succeeds (expressVectorInAnotherBodyFrame s B v A)
      <-> stage_leb Position (currentStage s) = true) /\
   (succeeds (findFrameTransformInGround s B frameOnB)
      <-> stage_leb Position (currentStage s) = true))
  /\
  ((succeeds (findBodyVelocityInAnotherBody s B A)
      <-> stage_leb Velocity (currentStage s) = true) /\
   (succeeds (findBodyAngularVelocityInAnotherBody s B A)
      <-> stage_leb Velocity (currentStage s) = true) /\
   (succeeds (findBodyOriginVelocityInAnotherBody s B A)
      <-> stage_leb Velocity (currentStage s) = true) /\
   (succeeds (findStationVelocityInGround s B v)
      <-> stage_leb Velocity (currentStage s) = true) /\
   (succeeds (findStationVelocityInAnotherBody s B v A)
      <-> stage_leb Velocity (currentStage s) = true) /\
   (succeeds (findStationLocationAndVelocityInGround s B v)
      <-> stage_leb Velocity (currentStage s) = true) /\
   (succeeds (findFrameVelocityInGround s B frameOnB)
      <-> stage_leb Velocity (currentStage s) = true))
  /\
  ((succeeds (findBodyAngularAccelerationInAnotherBody s B A)
      <-> stage_leb Acceleration (currentStage s) = true) /\
   (succeeds (findStationAccelerationInGround s B v)
      <-> stage_leb Acceleration (currentStage s) = true) /\
   (succeeds (findStationLocationVelocityAndAccelerationInGround s B v)
      <-> stage_leb Acceleration (currentStage s) = true) /\
   (succeeds (findFrameAccelerationInGround s B frameOnB)
      <-> stage_leb Acceleration (currentStage s) = true)).
Proof.
  repeat match goal with
         | |- _ /\ _ => split
         end; needs_stage.
Qed.

(* ------------------------------------------------------------------------ *)
(** ** Two stations of one body                                              *)
(* ------------------------------------------------------------------------ *)

Lemma rigid_velocity_perpendicular (o v w a b : Vec3) :
  dot ((v + w >< b) - (v + w >< a))%vec ((o + b) - (o + a))%vec = 0.
Proof. vec_crush; try (unfold Real; ring). Qed.

Lemma rigid_acceleration_identity (o v w acc alpha a b : Vec3) :
  dot ((o + b) - (o + a))%vec
      ((acc + alpha >< b + w >< (w >< b))
       - (acc + alpha >< a + w >< (w >< a)))%vec
  + dot ((v + w >< b) - (v + w >< a))%vec ((v + w >< b) - (v + w >< a))%vec
  = 0.
Proof. vec_crush; try (unfold Real; ring). Qed.

(** X23.  Two stations fixed on one body keep their distance, which is why
    the distance operators may answer without the State when both stations
    are on the same body: on a realized State the Ground distance of the
    stations is their distance in the body frame, their relative Ground
    velocity is perpendicular to their separation (r.v = 0), and
    r.a + v.v = 0, so the rate formulas for separated stations give zero as
    well. *)
Theorem stations_of_one_body_keep_their_distance
    (s : State) (B : MobilizedBody) (station1 station2 : Vec3) :
  realizedTo Acceleration s ->
  exists r1 r2 v1 v2 a1 a2,
    findStationLocationInGround s B station1 = Ok r1 /\
    findStationLocationInGround s B station2 = Ok r2 /\
    findStationVelocityInGround s B station1 = Ok v1 /\
    findStationVelocityInGround s B station2 = Ok v2 /\
    findStationAccelerationInGround s B station1 = Ok a1 /\
    findStationAccelerationInGround s B station2 = Ok a2 /\
    calcStationToStationDistance s B station1 B station2
      = Ok (norm (r2 - r1)%vec) /\
    dot (v2 - v1)%vec (r2 - r1)%vec = 0 /\
    dot (r2 - r1)%vec (a2 - a1)%vec + dot (v2 - v1)%vec (v2 - v1)%vec = 0.
Proof.
  intros [Ha Hrot]. pose proof (acceleration_stage_velocity s Ha) as Hv.
  pose proof (velocity_stage_position s Hv) as Hp.
  rewrite !findStationLocationInGround_ok by exact Hp.
  rewrite !findStationVelocityInGround_ok by exact Hv.
  rewrite !findStationAccelerationInGround_ok by exact Ha.
  eexists _, _, _, _, _, _. do 6 (split; [reflexivity|]).
  split; [|split].
  - unfold calcStationToStationDistance, isSameMobilizedBody.
    rewrite Nat.eqb_refl. f_equal. unfold xformStation.
    replace (p (cacheX_GB s B) + mvmul (R (cacheX_GB s B)) station2
             - (p (cacheX_GB s B) + mvmul (R (cacheX_GB s B)) station1))%vec
      with (mvmul (R (cacheX_GB s B)) (station2 - station1)%vec)
      by (rewrite mvmul_vsub; vec_crush).
    symmetry. apply norm_rotate. apply Hrot.
  - unfold xformStation. apply rigid_velocity_perpendicular.
  - unfold xformStation. apply rigid_acceleration_identity.
Qed.

Lemma stations_of_one_body_keep_their_distance_witness :
  realizedTo Acceleration armState /\
  exists r1 r2,
    findStationLocationInGround armState 1%nat (mkVec3 2 3 5) = Ok r1 /\
    findStationLocationInGround armState 1%nat (mkVec3 1 0 0) = Ok r2 /\
    calcStationToStationDistance armState 1%nat (mkVec3 2 3 5) 1%nat (mkVec3 1 0 0)
      = Ok (norm (r2 - r1)%vec).
Proof.
  split; [exact armState_realized|].
  destruct (stations_of_one_body_keep_their_distance
              armState 1%nat (mkVec3 2 3 5) (mkVec3 1 0 0) armState_realized)
    as (r1 & r2 & _ & _ & _ & _ & H1 & H2 & _ & _ & _ & _ & H3 & _).
  exists r1, r2. repeat split; assumption.
Defined.
